(** * Magda: compiling an authorisation decision into aspect queries

    Shallow embedding of [au.csiro.data61.magda.model.Auth]
    (magda-scala-common): the truthiness of JSON values, the operands,
    expressions and rules of a concise decision, the resolution of a
    reference string into an aspect id and a path, and the compilation of
    a decision into groups of aspect queries and into an optional SQL
    condition.

    Scala exceptions are results of an error monad; [Vector], [List] and
    [Seq] are lists; a [Set[String]] of prefixes is the list of its
    members in the order the set iterates them. *)

From Stdlib Require Import Bool Arith List ZArith Lia.
From Stdlib Require Import Sorting.Sorted Sorting.Permutation.
From Stdlib Require Import Strings.Ascii Strings.String.
Import ListNotations.

Open Scope string_scope.
Open Scope list_scope.
Open Scope nat_scope.

(** ** Strings, as [java.lang.String] offers them *)

(** [ref.startsWith(prefix)]. *)
Definition startsWith (ref pre : string) : bool := String.prefix pre ref.

(** [ref.substring(n)]: the string without its first [n] characters. *)
Fixpoint substringFrom (n : nat) (s : string) : string :=
  match n, s with
  | O, _ => s
  | S _, EmptyString => EmptyString
  | S n', String _ s' => substringFrom n' s'
  end.

(** [s.endsWith(suffix)]. *)
Definition endsWith (s suffix : string) : bool :=
  let n := String.length s in
  let m := String.length suffix in
  (m <=? n) && String.eqb (substringFrom (n - m) s) suffix.

(** [s.replaceFirst("^\\.", "")]: one leading dot is removed. *)
Definition dropLeadingDot (s : string) : string :=
  match s with
  | String "."%char s' => s'
  | _ => s
  end.

(** Every piece between two dots, the empty ones included. *)
Fixpoint pieces (s : string) : list string :=
  match s with
  | EmptyString => [EmptyString]
  | String c s' =>
      if Ascii.eqb c "."%char then EmptyString :: pieces s'
      else match pieces s' with
           | seg :: rest => String c seg :: rest
           | [] => [String c EmptyString]
           end
  end.

Definition isEmpty (s : string) : bool :=
  match s with EmptyString => true | _ => false end.

Fixpoint dropTrailingEmpty (l : list string) : list string :=
  match l with
  | [] => []
  | s :: l' =>
      match dropTrailingEmpty l' with
      | [] => if isEmpty s then [] else [s]
      | rest => s :: rest
      end
  end.

(** [s.split("\\.")]: when no dot occurs the array holds [s] itself,
    otherwise trailing empty strings are removed. *)
Definition split (s : string) : list string :=
  match pieces s with
  | [whole] => [whole]
  | ps => dropTrailingEmpty ps
  end.

(** ** JSON values (spray-json) *)

(** [scala.math.BigDecimal]: an unscaled integer and a decimal scale. *)
Record BigDecimal : Type := mkBigDecimal { unscaledValue : Z; scale : Z }.

(** [v == 0] on a [BigDecimal]: zero at any scale. *)
Definition isZero (v : BigDecimal) : bool := Z.eqb (unscaledValue v) 0.

#[local] Set Warnings "-register-all".
Inductive JsValue : Type :=
| JsNull
| JsTrue
| JsFalse
| JsNumber (v : BigDecimal)
| JsString (str : string)
| JsArray (elements : list JsValue)
| JsObject (fields : list (string * JsValue)).

Definition isTrueEquivalent (value : JsValue) : bool :=
  match value with
  | JsFalse => false
  | JsNull => false
  | JsString str => negb (isEmpty str)
  | JsNumber v => negb (isZero v)
  | JsArray v => negb (List.length v =? 0)
  | _ => true
  end.

(** ** Errors *)

(** One constructor per [throw] of the source, and one for [Option.get]
    on [None]. *)
Inductive Error : Type :=
| NonRefToRefString      (* Cannot convert non-ref term to ref string *)
| RefNonString           (* Ref term has non-string type value *)
| RefToValue             (* Attempt to covert reference Operand to AspectQueryValue *)
| UnsupportedJsValue     (* Failed to convert unsupported JsValue to AspectQueryValue *)
| UnsupportedSqlOperator (* unsupported operator *)
| BothReferences         (* expression with both terms are references *)
| BothValues             (* Terms shouldn't be both value *)
| CollectionOperator     (* Only `=` operator is supported for collection reference *)
| MoreThanTwoOperands    (* more than 2 operands found *)
| NoSuchElement.         (* None.get *)

(** The error kinds by which the specification names these failures. *)
Inductive ErrorKind : Type :=
| InvalidReference
| UnsupportedValueType
| InvalidOperandUsage
| UnsupportedExpressionShape
| UnsupportedOperator
| UnsupportedOperatorForCollection
| TooManyOperands
| MissingOperator.

Definition kindOf (e : Error) : ErrorKind :=
  match e with
  | NonRefToRefString => InvalidOperandUsage
  | RefNonString => InvalidReference
  | RefToValue => InvalidOperandUsage
  | UnsupportedJsValue => UnsupportedValueType
  | UnsupportedSqlOperator => UnsupportedOperator
  | BothReferences => UnsupportedExpressionShape
  | BothValues => UnsupportedExpressionShape
  | CollectionOperator => UnsupportedOperatorForCollection
  | MoreThanTwoOperands => TooManyOperands
  | NoSuchElement => MissingOperator
  end.

Inductive Try (A : Type) : Type :=
| Ok (a : A)
| Err (e : Error).
Arguments Ok {A} a.
Arguments Err {A} e.

Definition bind {A B : Type} (r : Try A) (k : A -> Try B) : Try B :=
  match r with
  | Ok a => k a
  | Err e => Err e
  end.

Notation "x <- r ;; k" := (bind r (fun x => k))
  (at level 61, r at next level, right associativity).
Notation "' pat <- r ;; k" := (bind r (fun x => match x with pat => k end))
  (at level 61, pat pattern, r at next level, right associativity).

(** [l.map(f)] where [f] may throw: the first failure aborts. *)
Fixpoint mapM {A B : Type} (f : A -> Try B) (l : list A) : Try (list B) :=
  match l with
  | [] => Ok []
  | a :: l' => b <- f a ;; bs <- mapM f l' ;; Ok (b :: bs)
  end.

(** [Option.get]. *)
Definition get {A : Type} (o : option A) : Try A :=
  match o with
  | Some a => Ok a
  | None => Err NoSuchElement
  end.

(** ** Operands *)

Record ConciseOperand : Type := mkOperand { isRef : bool; value : JsValue }.

Definition refString (o : ConciseOperand) : Try string :=
  if negb (isRef o) then Err NonRefToRefString
  else match value o with
       | JsString v => Ok v
       | _ => Err RefNonString
       end.

(** [SortedSet.empty(Ordering.by(_.length)(Ordering.Int.reverse)) + p]:
    the set is kept by descending length, and a string whose length is
    already present compares equal to that member.  [TreeSet.+] of Scala
    2.12, for which the code is written, puts the new string in the place
    of the member it compares equal to ([replace = true]); a [TreeSet] that
    keeps the member and drops the new string is [replace = false]. *)
Fixpoint insertByLength (replace : bool) (p : string) (sorted : list string)
  : list string :=
  match sorted with
  | [] => [p]
  | q :: rest =>
      if String.length q =? String.length p
      then (if replace then p :: rest else sorted)
      else if String.length q <? String.length p then p :: sorted
      else q :: insertByLength replace p rest
  end.

(** [SortedSet.empty(...) ++ prefixes]: the members are added one by one,
    in the order the set of prefixes yields them. *)
Definition sortedPrefixesWith (replace : bool) (prefixes : list string)
  : list string :=
  fold_left (fun acc p => insertByLength replace p acc) prefixes [].

(** The sorted prefixes of the code, with the [TreeSet] of Scala 2.12. *)
Definition sortedPrefixes (prefixes : list string) : list string :=
  sortedPrefixesWith true prefixes.

Definition stripPrefix (ref pre : string) : string :=
  if startsWith ref pre then substringFrom (String.length pre) ref else ref.

Definition refStringWithoutPrefixes (prefixes : list string) (o : ConciseOperand)
  : Try string :=
  ref <- refString o ;;
  Ok (fold_left stripPrefix (sortedPrefixes prefixes) ref).

Definition isCollectionRef (o : ConciseOperand) : Try bool :=
  ref <- refString o ;; Ok (endsWith ref "[_]").

(** [parts.slice(from, until)]. *)
Definition slice {A : Type} (from until : nat) (l : list A) : list A :=
  firstn (until - from) (skipn from l).

Definition extractAspectIdAndPath (prefixes : list string) (o : ConciseOperand)
  : Try (string * list string * bool) :=
  stripped <- refStringWithoutPrefixes prefixes o ;;
  let ref := dropLeadingDot stripped in
  let parts := filter (fun s => negb (String.eqb s "")) (split ref) in
  if List.length parts <? 2 then Ok (ref, [], false)
  else
    let isCollection := endsWith (last parts "") "[_]" in
    Ok (hd "" parts,
        slice 1 (if isCollection then List.length parts - 1 else List.length parts) parts,
        isCollection).

(** Typed query values ([AspectQueryValue]). *)
Inductive AspectQueryValue : Type :=
| AspectQueryStringValue (s : string)
| AspectQueryBooleanValue (b : bool)
| AspectQueryBigDecimalValue (d : BigDecimal).

Definition toAspectQueryValue (o : ConciseOperand) : Try AspectQueryValue :=
  if isRef o then Err RefToValue
  else match value o with
       | JsString s => Ok (AspectQueryStringValue s)
       | JsTrue => Ok (AspectQueryBooleanValue true)
       | JsFalse => Ok (AspectQueryBooleanValue false)
       | JsNumber bigDec => Ok (AspectQueryBigDecimalValue bigDec)
       | _ => Err UnsupportedJsValue
       end.

(** ** Aspect queries and SQL fragments

    [SQLSyntax] and its combinators belong to scalikejdbc, and the
    aspect-query classes to another file of the repository; the compiler
    below uses them through the operations named here. *)

Section Compiler.

Variable SQLSyntax : Type.
(** [SQLSyntax.createUnsafely], [SQLSyntax.joinWithOr] and
    [SQLSyntax.roundBracket]. *)
Variable createUnsafely : string -> SQLSyntax.
Variable joinWithOr : list SQLSyntax -> SQLSyntax.
Variable roundBracket : SQLSyntax -> SQLSyntax.

(** The queries, with the arguments in the order the compiler passes
    them. *)
Inductive AspectQuery : Type :=
| AspectQueryTrue
| AspectQueryFalse
| AspectQueryExists (aspectId : string) (path : list string) (negated : bool)
| AspectQueryArrayNotEmpty (aspectId : string) (path : list string)
    (negated : bool)
| AspectQueryValueInArray (aspectId : string) (path : list string)
    (v : AspectQueryValue) (negated : bool)
| AspectQueryWithValue (aspectId : string) (path : list string)
    (v : AspectQueryValue) (sqlOperator : SQLSyntax) (negated : bool)
    (placeReferenceFirst : bool).

Record AspectQueryGroup : Type := mkGroup {
  queries : list AspectQuery;
  joinWithAnd : bool;
  group_negated : bool
}.

(** The values [AspectQueryGroup] gives [joinWithAnd] and [negated] when
    a group is built from its queries alone. *)
Variable defaultJoinWithAnd : bool.
Variable defaultNegated : bool.

(** [AspectQueryGroup.toSql(recordIdSqlRef, tenantIdSqlRef)]. *)
Variable groupToSql : AspectQueryGroup -> string -> string -> option SQLSyntax.

(** [SQLSyntax.toOrConditionOpt] of scalikejdbc, on a sequence of optional
    conditions: the conditions that are present, joined with [or]; no
    condition at all when none is present. *)
Definition toOrConditionOpt (conditions : list (option SQLSyntax))
  : option SQLSyntax :=
  let cs := flat_map (fun c => match c with Some x => [x] | None => [] end)
                     conditions in
  match cs with
  | [] => None
  | _ => Some (joinWithOr cs)
  end.

(** ** Expressions *)

Record ConciseExpression : Type := mkExpression {
  negated : bool;
  operator : option string;
  operands : list ConciseOperand
}.

Definition toSqlOperator (regoOperator : string) : Try SQLSyntax :=
  if String.eqb regoOperator "=" then Ok (createUnsafely "=")
  else if String.eqb regoOperator ">" then Ok (createUnsafely ">")
  else if String.eqb regoOperator "<" then Ok (createUnsafely "<")
  else if String.eqb regoOperator ">=" then Ok (createUnsafely ">=")
  else if String.eqb regoOperator "<=" then Ok (createUnsafely "<=")
  else Err UnsupportedSqlOperator.

(** [b && r], where evaluating [r] may throw and is skipped when [b] is
    false. *)
Definition andAlso (b : bool) (r : Try bool) : Try bool :=
  if b then r else Ok false.

(** The three branches are those on [operands.length]: one operand, two
    operands, and any other number of them; [operand0] is [operands(0)]. *)
Definition toAspectQuery (prefixes : list string) (e : ConciseExpression)
  : Try AspectQuery :=
  match operands e with
  | [operand0] =>
      '(aspectId, path, isCollection) <-
        extractAspectIdAndPath prefixes operand0 ;;
      if isCollection then
        Ok (AspectQueryArrayNotEmpty aspectId path (negated e))
      else
        Ok (AspectQueryExists aspectId path (negated e))
  | [operand0; _] =>
      let refOperand := find isRef (operands e) in
      let valOperand := find (fun o => negb (isRef o)) (operands e) in
      match valOperand with
      | None => Err BothReferences
      | Some valOp =>
          match refOperand with
          | None => Err BothValues
          | Some refOp =>
              '(aspectId, path, isCollection) <-
                extractAspectIdAndPath prefixes refOp ;;
              unsupported <-
                andAlso isCollection
                  (op <- get (operator e) ;; Ok (negb (String.eqb op "="))) ;;
              if unsupported then Err CollectionOperator
              else
                membership <-
                  andAlso isCollection
                    (op <- get (operator e) ;; Ok (String.eqb op "=")) ;;
                if membership then
                  v <- toAspectQueryValue valOp ;;
                  Ok (AspectQueryValueInArray aspectId path v (negated e))
                else
                  v <- toAspectQueryValue valOp ;;
                  op <- get (operator e) ;;
                  sqlOp <- toSqlOperator op ;;
                  Ok (AspectQueryWithValue aspectId path v sqlOp (negated e)
                        (isRef operand0))
          end
      end
  | _ => Err MoreThanTwoOperands
  end.

(** ** Rules *)

Record ConciseRule : Type := mkRule {
  rule_default : bool;
  rule_value : JsValue;
  fullName : string;
  name : string;
  expressions : list ConciseExpression
}.

Definition toAspectQueryGroup (prefixes : list string) (r : ConciseRule)
  : Try AspectQueryGroup :=
  qs <- mapM (toAspectQuery prefixes) (expressions r) ;;
  Ok (mkGroup qs true (negb (isTrueEquivalent (rule_value r)))).

(** ** Decisions *)

Record AuthDecision : Type := mkDecision {
  hasResidualRules : bool;
  result : option JsValue;
  residualRules : option (list ConciseRule);
  hasWarns : bool;
  warns : option (list string);
  unknowns : option (list string)
}.

(** [residualRules.toList.flatten]. *)
Definition rulesOf (d : AuthDecision) : list ConciseRule :=
  match residualRules d with
  | Some rules => rules
  | None => []
  end.

Definition toAspectQueryGroups (prefixes : list string) (d : AuthDecision)
  : Try (list AspectQueryGroup) :=
  if hasResidualRules d then
    mapM (toAspectQueryGroup prefixes) (rulesOf d)
  else if isTrueEquivalent (match result d with Some v => v | None => JsFalse end)
  then Ok [mkGroup [AspectQueryTrue] defaultJoinWithAnd defaultNegated]
  else Ok [mkGroup [AspectQueryFalse] defaultJoinWithAnd defaultNegated].

Definition toSql (prefixes : list string) (recordIdSqlRef tenantIdSqlRef : string)
  (d : AuthDecision) : Try (option SQLSyntax) :=
  groups <- toAspectQueryGroups prefixes d ;;
  Ok (option_map roundBracket
        (toOrConditionOpt
           (map (fun g => groupToSql g recordIdSqlRef tenantIdSqlRef) groups))).

End Compiler.

Arguments AspectQueryTrue {SQLSyntax}.
Arguments AspectQueryFalse {SQLSyntax}.
Arguments AspectQueryExists {SQLSyntax} aspectId path negated.
Arguments AspectQueryArrayNotEmpty {SQLSyntax} aspectId path negated.
Arguments AspectQueryValueInArray {SQLSyntax} aspectId path v negated.
Arguments AspectQueryWithValue {SQLSyntax} aspectId path v sqlOperator negated
  placeReferenceFirst.
Arguments mkGroup {SQLSyntax} queries joinWithAnd group_negated.
Arguments queries {SQLSyntax} a.
Arguments joinWithAnd {SQLSyntax} a.
Arguments group_negated {SQLSyntax} a.
Arguments toOrConditionOpt {SQLSyntax} joinWithOr conditions.
Arguments toSqlOperator {SQLSyntax} createUnsafely regoOperator.
Arguments toAspectQuery {SQLSyntax} createUnsafely prefixes e.
Arguments toAspectQueryGroup {SQLSyntax} createUnsafely prefixes r.
Arguments toAspectQueryGroups {SQLSyntax} createUnsafely defaultJoinWithAnd
  defaultNegated prefixes d.
Arguments toSql {SQLSyntax} createUnsafely joinWithOr roundBracket
  defaultJoinWithAnd defaultNegated groupToSql prefixes recordIdSqlRef
  tenantIdSqlRef d.

(** The default arguments of [AuthDecision.toSql]. *)
Definition defaultPrefixes : list string := ["object.record"].
Definition defaultRecordIdSqlRef : string := "records.recordid".
Definition defaultTenantIdSqlRef : string := "records.tenantid".

Definition UnconditionalTrueDecision : AuthDecision :=
  mkDecision false (Some JsTrue) None false None None.

Definition UnconditionalFalseDecision : AuthDecision :=
  mkDecision false (Some JsFalse) None false None None.

(** ** SQL fragments as plain text

    An instance of the SQL operations on which the compiler can be run:
    a fragment is its text. *)

Definition textSql (s : string) : string := s.

Definition textJoinWithOr (parts : list string) : string :=
  String.concat " or " parts.

Definition textRoundBracket (inner : string) : string :=
  String.append "(" (String.append inner ")").

(** A group is rendered here only as far as the constant queries go. *)
Definition textGroupToSql (g : AspectQueryGroup string) (recordIdSqlRef tenantIdSqlRef : string)
  : option string :=
  match queries g with
  | [] => None
  | [AspectQueryTrue] => Some "TRUE"
  | _ => Some "FALSE"
  end.

(** Modelled from the spec: the caller of [toSql], which is not part of
    this file.  "Callers may then skip adding any WHERE clause" when no
    condition is returned: every row is selected; otherwise the rows the
    condition holds of. *)
Definition selectRows {SQLSyntax Row : Type} (holds : SQLSyntax -> Row -> bool)
  (condition : option SQLSyntax) (rows : list Row) : list Row :=
  match condition with
  | None => rows
  | Some c => filter (holds c) rows
  end.

(** A decision with residual rules and an empty list of them. *)
Definition emptyRulesDecision : AuthDecision :=
  mkDecision true None (Some []) false None None.

(** A decision with residual rules announced and none given. *)
Definition absentRulesDecision : AuthDecision :=
  mkDecision true None None false None None.

(** The falsy JSON values of the truthiness table: [false], [null], the
    empty string, zero and the empty array. *)
Definition falsy (v : JsValue) : Prop :=
  v = JsFalse \/ v = JsNull \/ v = JsString "" \/
  (exists d, v = JsNumber d /\ unscaledValue d = 0%Z) \/ v = JsArray [].

(** The two operands of an expression are one reference and one literal,
    in either order. *)
Definition oneReference (e : ConciseExpression) (refOp valOp : ConciseOperand)
  : Prop :=
  isRef refOp = true /\ isRef valOp = false
  /\ (operands e = [refOp; valOp] \/ operands e = [valOp; refOp]).

(** [operands(0).isRef]: whether the first operand is a reference. *)
Definition referenceFirst (e : ConciseExpression) : bool :=
  match operands e with
  | o :: _ => isRef o
  | [] => false
  end.

(** Of two strings, the first is the longer. *)
Definition longer (p q : string) : Prop := String.length q < String.length p.

(** Operands, and a set of prefixes, on which the compiler is run below. *)
Definition ownerRef : ConciseOperand :=
  mkOperand true (JsString "input.object.record.aspects.ds.owner").
Definition abcLiteral : ConciseOperand := mkOperand false (JsString "abc").
Definition tagsRef : ConciseOperand :=
  mkOperand true (JsString "input.object.record.aspects.ds.meta.tags[_]").
Definition aspectsPrefix : list string := ["input.object.record.aspects"].

(** ** The context data of a record, and the request for a decision *)

(** [entries.toMap] and [Map.get] on the entries of a JSON object: a later
    entry replaces an earlier one with the same key. *)
Fixpoint updated (k : string) (v : JsValue) (m : list (string * JsValue))
  : list (string * JsValue) :=
  match m with
  | [] => [(k, v)]
  | (k', v') :: m' =>
      if String.eqb k' k then (k, v) :: m' else (k', v') :: updated k v m'
  end.

Definition toMap (entries : list (string * JsValue)) : list (string * JsValue) :=
  fold_left (fun m kv => updated (fst kv) (snd kv) m) entries [].

Fixpoint lookup (k : string) (m : list (string * JsValue)) : option JsValue :=
  match m with
  | [] => None
  | (k', v) :: m' => if String.eqb k' k then Some v else lookup k m'
  end.

(** [option.toList]. *)
Definition toList {A : Type} (o : option A) : list A :=
  match o with
  | Some a => [a]
  | None => []
  end.

(** [Registry.Record], as far as [recordToContextData] reads it; [aspects]
    is a [Map[String, JsObject]], given by its entries, each aspect by the
    fields of its object. *)
Record RegistryRecord : Type := mkRecord {
  record_id : string;
  record_name : string;
  aspects : list (string * list (string * JsValue));
  sourceTag : option string;
  tenantId : option Z
}.

(** The entries gathered in [recordJsFields], in the order they are
    appended. *)
Definition recordJsFields (record : RegistryRecord) : list (string * JsValue) :=
  [("id", JsString (record_id record));
   ("name", JsString (record_name record));
   ("lastUpdate", JsNull)]
  ++ toList (option_map (fun t => ("sourceTag", JsString t)) (sourceTag record))
  ++ toList (option_map (fun t => ("tenantId", JsNumber (mkBigDecimal t 0)))
               (tenantId record))
  ++ map (fun a => (fst a, JsObject (snd a))) (aspects record).

Definition recordToContextData (record : RegistryRecord) : JsValue :=
  JsObject (toMap (recordJsFields record)).

(** [AuthDecisionReqConfig], by the fields [getAuthDecision] reads
    ([req_unknowns] is its [unknowns]). *)
Record AuthDecisionReqConfig : Type := mkReqConfig {
  operationUri : string;
  resourceUri : option string;
  req_unknowns : option (list string);
  rawAst : option bool;
  explain : option string;
  pretty : option bool;
  humanReadable : option bool;
  concise : option bool;
  input : option JsValue
}.

(** [Boolean.toString]. *)
Definition boolToString (b : bool) : string := if b then "true" else "false".

Definition isDefined {A : Type} (o : option A) : bool :=
  match o with Some _ => true | None => false end.

(** [option.filter(p)]. *)
Definition optionFilter {A : Type} (p : A -> bool) (o : option A) : option A :=
  match o with
  | Some a => if p a then Some a else None
  | None => None
  end.

(** [config.unknowns.isDefined && config.unknowns.get.length > 0] and
    [... == 0]. *)
Definition unknownsGiven (config : AuthDecisionReqConfig) : bool :=
  match req_unknowns config with
  | Some us => 0 <? List.length us
  | None => false
  end.

Definition unknownsEmpty (config : AuthDecisionReqConfig) : bool :=
  match req_unknowns config with
  | Some us => List.length us =? 0
  | None => false
  end.

Definition usePost (config : AuthDecisionReqConfig) : bool :=
  isDefined (input config) || unknownsGiven config
  || isDefined (resourceUri config).

(** A flag of the query string that is sent with its value only when the
    value is [false]: [flag.filter(!_).map(_.toString)]. *)
Definition falseOnly (key : string) (flag : option bool)
  : list (string * option string) :=
  if isDefined flag
  then [(key, option_map boolToString (optionFilter negb flag))]
  else [].

Definition requestQueryFields (config : AuthDecisionReqConfig)
  : list (string * option string) :=
  falseOnly "rawAst" (rawAst config)
  ++ falseOnly "concise" (concise config)
  ++ (if isDefined (explain config) then [("explain", explain config)] else [])
  ++ (if isDefined (pretty config)
      then [("pretty", option_map boolToString (pretty config))] else [])
  ++ falseOnly "humanReadable" (humanReadable config)
  ++ (if unknownsEmpty config then [("unknowns", Some "")] else []).

Definition requestDataFields (config : AuthDecisionReqConfig)
  : list (string * JsValue) :=
  [("operationUri", JsString (operationUri config))]
  ++ toList (option_map (fun i => ("input", i)) (input config))
  ++ (if unknownsGiven config
      then toList (option_map
                     (fun us => ("unknowns", JsArray (map JsString us)))
                     (req_unknowns config))
      else [])
  ++ toList (option_map (fun r => ("resourceUri", JsString r))
               (resourceUri config)).

(** What [getAuthDecision] hands to the HTTP fetcher: a GET of the URL, or a
    POST of the URL with the request data. *)
Record DecisionRequest : Type := mkRequest {
  post : bool;
  urlPath : list string;
  query : list (string * option string);
  headers : list (string * string);
  requestData : option JsValue
}.

(** [getAuthDecision], up to the HTTP call: the decision returned at once
    when the policy engine is skipped, or the request that is sent. *)
Inductive DecisionCall : Type :=
| Immediate (d : AuthDecision)
| Fetch (r : DecisionRequest).

Section DecisionRequests.

(** [UrlPath.parse(uri).parts], of the URI library. *)
Variable pathParts : string -> list string.

Definition authDecisionEndpoint : list string := ["v0"; "opa"; "decision"].

Definition getAuthDecision (skipOpaQuery : bool) (jwtToken : option string)
  (config : AuthDecisionReqConfig) : DecisionCall :=
  if skipOpaQuery then Immediate UnconditionalTrueDecision
  else
    Fetch (mkRequest
             (usePost config)
             (if negb (usePost config)
              then authDecisionEndpoint ++ pathParts (operationUri config)
              else authDecisionEndpoint)
             (requestQueryFields config)
             (match jwtToken with
              | Some jwt => [("X-Magda-Session", jwt)]
              | None => []
              end)
             (if negb (usePost config) then None
              else Some (JsObject (toMap (requestDataFields config))))).

End DecisionRequests.

(** ** Predicates of the properties below *)

(** A path segment: not empty, and without a dot. *)
Definition isSegment (s : string) : Prop :=
  s <> "" /\ ~ In "."%char (list_ascii_of_string s).

(** The comparison operators of the decisions. *)
Definition comparisonOperators : list string := ["="; ">"; "<"; ">="; "<="].

(** [p] is the first prefix of its length that the set yields. *)
Definition firstOfItsLength (p : string) (prefixes : list string) : Prop :=
  find (fun q => String.length q =? String.length p) prefixes = Some p.

(** [p] is the last prefix of its length that the set yields. *)
Definition lastOfItsLength (p : string) (prefixes : list string) : Prop :=
  firstOfItsLength p (rev prefixes).

(** A flag of the request is in the query fields as the code sends the
    flags [rawAst], [concise] and [humanReadable]: under its key, without
    value when it is true and with the value [false] when it is false, and
    not at all when it is absent. *)
Definition sentFalseOnly (key : string) (flag : option bool)
  (fields : list (string * option string)) : Prop :=
  forall v, In (key, v) fields <->
            exists b, flag = Some b /\ v = if b then None else Some "false".

(** A result with a function applied to its value. *)
Definition mapTry {A B : Type} (f : A -> B) (r : Try A) : Try B :=
  match r with
  | Ok a => Ok (f a)
  | Err e => Err e
  end.

(** The same query with the sides of a comparison exchanged. *)
Definition flipPlacement {SQLSyntax : Type} (q : AspectQuery SQLSyntax)
  : AspectQuery SQLSyntax :=
  match q with
  | AspectQueryWithValue aspectId path v sqlOperator negated placeReferenceFirst =>
      AspectQueryWithValue aspectId path v sqlOperator negated
        (negb placeReferenceFirst)
  | _ => q
  end.

(** The conditions that are present among optional ones. *)
Definition present {A : Type} (conditions : list (option A)) : list A :=
  flat_map (fun c => match c with Some x => [x] | None => [] end) conditions.

(** The field of the request data under a key, when data is sent. *)
Definition requestDataField (k : string) (r : DecisionRequest) : option JsValue :=
  match requestData r with
  | Some (JsObject fields) => lookup k fields
  | _ => None
  end.

(** The fields of the context data under a key. *)
Definition contextField (k : string) (record : RegistryRecord) : option JsValue :=
  match recordToContextData record with
  | JsObject fields => lookup k fields
  | _ => None
  end.

(** Rules, decisions, a record and a request on which the functions are
    run below. *)
Definition ownerExpression : ConciseExpression :=
  mkExpression false None [ownerRef].

Definition twoReferences : ConciseExpression :=
  mkExpression false (Some "=") [ownerRef; tagsRef].

Definition ownerRule : ConciseRule :=
  mkRule false JsTrue "data.object.record.allow" "allow" [ownerExpression].

Definition brokenRule : ConciseRule :=
  mkRule false JsTrue "data.object.record.allow" "allow"
    [ownerExpression; twoReferences; ownerExpression].

Definition ownerDecision : AuthDecision :=
  mkDecision true (Some JsTrue) (Some [ownerRule]) false None None.

Definition brokenDecision : AuthDecision :=
  mkDecision true None (Some [ownerRule; brokenRule; ownerRule]) false None None.

Definition sampleRecord : RegistryRecord :=
  mkRecord "rec-1" "A record"
    [("dcat-dataset-strings", [("title", JsString "A title")]); ("id", [])]
    (Some "tag") None.

Definition sampleConfig : AuthDecisionReqConfig :=
  mkReqConfig "object/record/read" None (Some ["input.object.record"])
    (Some true) None (Some false) None None None.

Definition sampleRequest : DecisionRequest :=
  mkRequest true ["v0"; "opa"; "decision"]
    [("rawAst", None); ("pretty", Some "false")]
    [("X-Magda-Session", "token")]
    (Some (JsObject
             [("operationUri", JsString "object/record/read");
              ("unknowns", JsArray [JsString "input.object.record"])])).

(** The whole URI as the one part of a path. *)
Definition onePart (uri : string) : list string := [uri].

(** * Properties *)

Section Properties.

Variable SQLSyntax : Type.
Variable createUnsafely : string -> SQLSyntax.
Variable joinWithOr : list SQLSyntax -> SQLSyntax.
Variable roundBracket : SQLSyntax -> SQLSyntax.
Variable defaultJoinWithAnd : bool.
Variable defaultNegated : bool.
Variable groupToSql : AspectQueryGroup SQLSyntax -> string -> string -> option SQLSyntax.

Local Abbreviation compileExpression := (toAspectQuery createUnsafely).
Local Abbreviation compileRule := (toAspectQueryGroup createUnsafely).
Local Abbreviation compileDecision :=
  (toAspectQueryGroups createUnsafely defaultJoinWithAnd defaultNegated).
Local Abbreviation decisionSql :=
  (toSql createUnsafely joinWithOr roundBracket defaultJoinWithAnd
     defaultNegated groupToSql).

(** *** The error monad *)

Lemma bind_Ok_inv {A B : Type} (r : Try A) (k : A -> Try B) (b : B) :
  bind r k = Ok b -> exists a, r = Ok a /\ k a = Ok b.
Proof.
  destruct r as [a | e]; simpl; intros H.
  - exists a; split; [reflexivity | exact H].
  - discriminate H.
Qed.

Lemma mapM_Ok_Forall2 {A B : Type} (f : A -> Try B) (l : list A) (bs : list B) :
  mapM f l = Ok bs <-> Forall2 (fun a b => f a = Ok b) l bs.
Proof.
  revert bs; induction l as [| a l IH]; intros bs; simpl.
  - split; intros H.
    + injection H as <-. constructor.
    + inversion H. reflexivity.
  - split; intros H.
    + apply bind_Ok_inv in H as (b & Hb & H).
      apply bind_Ok_inv in H as (bs' & Hbs & H).
      injection H as <-. constructor; [exact Hb | apply IH, Hbs].
    + inversion H as [| a' b l' bs' Hb Hbs]; subst.
      rewrite Hb; simpl. apply IH in Hbs. rewrite Hbs. reflexivity.
Qed.

(** *** Truthiness *)

Lemma isTrueEquivalent_false_iff (v : JsValue) :
  isTrueEquivalent v = false <-> falsy v.
Proof.
  unfold falsy; split.
  - destruct v as [| | | d | s | els | fs]; simpl; intros H;
      try discriminate H; auto.
    + right; right; right; left. exists d. split; [reflexivity |].
      apply negb_false_iff in H. unfold isZero in H.
      apply Z.eqb_eq in H. exact H.
    + destruct s; [auto | discriminate H].
    + destruct els; [auto 6 | discriminate H].
  - intros [-> | [-> | [-> | [(d & -> & Hd) | ->]]]]; simpl; try reflexivity.
    unfold isZero. rewrite Hd. reflexivity.
Qed.

(** C2.  A rule compiles to the group of its expressions compiled in
    order, joined with AND, and negated exactly when the value of the rule
    is not truthy: the compilation succeeds with a group [g] if and only
    if the queries of [g] are the compiled expressions of the rule, one
    for one and in order, [joinWithAnd] is true and [negated] is the
    negation of the truthiness of the value.  A JSON value is not truthy
    exactly when it is [false], [null], the empty string, zero or the
    empty array; every other value, and so every object, is truthy. *)
Theorem C2_rule_group (prefixes : list string) (r : ConciseRule) :
  (forall g,
      compileRule prefixes r = Ok g <->
      Forall2 (fun e q => compileExpression prefixes e = Ok q)
              (expressions r) (queries g)
      /\ joinWithAnd g = true
      /\ group_negated g = negb (isTrueEquivalent (rule_value r)))
  /\ (forall v, isTrueEquivalent v = false <-> falsy v)
  /\ (forall v, isTrueEquivalent v = true <-> ~ falsy v)
  /\ (forall fields, isTrueEquivalent (JsObject fields) = true).
Proof.
  split; [| split; [| split]].
  - intros g. unfold toAspectQueryGroup. split.
    + intros H. apply bind_Ok_inv in H as (qs & Hqs & H).
      injection H as <-. simpl.
      split; [apply mapM_Ok_Forall2, Hqs | split; reflexivity].
    + intros (Hqs & Hand & Hneg). apply mapM_Ok_Forall2 in Hqs.
      rewrite Hqs; simpl. destruct g as [qs j n]; simpl in *.
      subst. reflexivity.
  - apply isTrueEquivalent_false_iff.
  - intros v. rewrite <- isTrueEquivalent_false_iff.
    destruct (isTrueEquivalent v); split; congruence.
  - reflexivity.
Qed.

(** C3.  A decision without residual rules always compiles: to the single
    group holding the one query [True] when its result, taken to be
    [false] when absent, is truthy, and to the single group holding the
    one query [False] otherwise. *)
Theorem C3_unconditional_decision (prefixes : list string) (d : AuthDecision) :
  hasResidualRules d = false ->
  let outcome := match result d with Some v => v | None => JsFalse end in
  exists g,
    compileDecision prefixes d = Ok [g]
    /\ queries g = [if isTrueEquivalent outcome
                    then AspectQueryTrue else AspectQueryFalse]
    /\ joinWithAnd g = defaultJoinWithAnd
    /\ group_negated g = defaultNegated.
Proof.
  intros Hres outcome. unfold toAspectQueryGroups. rewrite Hres.
  fold outcome. destruct (isTrueEquivalent outcome);
    eexists; repeat split; reflexivity.
Qed.

(** *** Decisions that announce residual rules and carry none *)

Lemma toOrConditionOpt_nil : toOrConditionOpt joinWithOr [] = None.
Proof. reflexivity. Qed.

Lemma no_group_no_condition (prefixes : list string) (rid tid : string)
  (d : AuthDecision) :
  compileDecision prefixes d = Ok [] -> decisionSql prefixes rid tid d = Ok None.
Proof.
  intros H. unfold toSql. rewrite H. reflexivity.
Qed.

(** C1, amended.  A decision with residual rules and an empty list of
    them compiles to the empty list of groups, and [toSql] returns no SQL
    condition at all for it. *)
Theorem C1_empty_rules_no_condition (prefixes : list string) (rid tid : string)
  (d : AuthDecision) :
  hasResidualRules d = true ->
  residualRules d = Some [] ->
  compileDecision prefixes d = Ok []
  /\ decisionSql prefixes rid tid d = Ok None.
Proof.
  intros Hres Hrules.
  assert (Hg : compileDecision prefixes d = Ok []).
  { unfold toAspectQueryGroups, rulesOf. rewrite Hres, Hrules. reflexivity. }
  split; [exact Hg | apply no_group_no_condition, Hg].
Qed.

(** C10.  A decision with residual rules announced and none given does
    not fail to compile: it yields the empty list of groups, [toSql]
    returns no SQL condition for it, and a caller that adds no WHERE
    clause in that case selects every row. *)
Theorem C10_absent_rules_no_condition (prefixes : list string) (rid tid : string)
  (d : AuthDecision) :
  hasResidualRules d = true ->
  residualRules d = None ->
  compileDecision prefixes d = Ok []
  /\ decisionSql prefixes rid tid d = Ok None
  /\ (forall (Row : Type) (holds : SQLSyntax -> Row -> bool) (rows : list Row)
             (condition : option SQLSyntax),
         decisionSql prefixes rid tid d = Ok condition ->
         selectRows holds condition rows = rows).
Proof.
  intros Hres Hrules.
  assert (Hg : compileDecision prefixes d = Ok []).
  { unfold toAspectQueryGroups, rulesOf. rewrite Hres, Hrules. reflexivity. }
  assert (Hs : decisionSql prefixes rid tid d = Ok None)
    by (apply no_group_no_condition, Hg).
  split; [exact Hg | split; [exact Hs |]].
  intros Row holds rows condition Hc. rewrite Hs in Hc.
  injection Hc as <-. reflexivity.
Qed.

(** *** Expressions *)

(** C6.  An expression with two operands that are both references or
    both literals fails to compile, with an error of the kind
    UnsupportedExpressionShape; an expression with more than two operands
    fails with the error of the kind TooManyOperands.  A failure carries
    no query. *)
Theorem C6_unsupported_shapes (prefixes : list string) (e : ConciseExpression) :
  (forall o1 o2,
      operands e = [o1; o2] ->
      isRef o1 = isRef o2 ->
      exists err,
        compileExpression prefixes e = Err err
        /\ kindOf err = UnsupportedExpressionShape)
  /\ (2 < List.length (operands e) ->
      compileExpression prefixes e = Err MoreThanTwoOperands
      /\ kindOf MoreThanTwoOperands = TooManyOperands).
Proof.
  split.
  - intros o1 o2 Hops Hsame. unfold toAspectQuery. rewrite Hops. simpl.
    destruct (isRef o1) eqn:H1; rewrite <- Hsame; simpl.
    + exists BothReferences. split; reflexivity.
    + exists BothValues. split; reflexivity.
  - intros Hlen. split; [| reflexivity].
    unfold toAspectQuery.
    destruct (operands e) as [| o1 [| o2 [| o3 rest]]]; simpl in Hlen;
      try lia; reflexivity.
Qed.

(** The compilation of such an expression, once its reference is
    resolved. *)
Lemma compile_one_reference (prefixes : list string) (e : ConciseExpression)
  (refOp valOp : ConciseOperand) (aspectId : string) (path : list string)
  (isCollection : bool) :
  oneReference e refOp valOp ->
  extractAspectIdAndPath prefixes refOp = Ok (aspectId, path, isCollection) ->
  compileExpression prefixes e =
  if isCollection then
    op <- get (operator e) ;;
    if String.eqb op "=" then
      v <- toAspectQueryValue valOp ;;
      Ok (AspectQueryValueInArray aspectId path v (negated e))
    else Err CollectionOperator
  else
    v <- toAspectQueryValue valOp ;;
    op <- get (operator e) ;;
    sqlOp <- toSqlOperator createUnsafely op ;;
    Ok (AspectQueryWithValue aspectId path v sqlOp (negated e)
          (referenceFirst e)).
Proof.
  intros (Href & Hval & Hops) Hextract.
  unfold toAspectQuery, referenceFirst.
  destruct Hops as [Hops | Hops]; rewrite Hops; simpl;
    rewrite Href, Hval; simpl; rewrite Hextract; simpl;
    (destruct isCollection; simpl;
     [ destruct (operator e) as [op |]; simpl;
       [ destruct (String.eqb op "="); reflexivity | reflexivity ]
     | rewrite ?Href, ?Hval; reflexivity ]).
Qed.

(** C7.  When the reference of a two-operand expression resolves to a
    collection reference: a successful compilation has the operator [=]
    and yields [ValueInArray] of the aspect id, the path, the literal as a
    query value and the negated flag of the expression; with the operator
    [=] and a literal that converts, the compilation succeeds; with any
    other operator it fails with the error of the kind
    UnsupportedOperatorForCollection. *)
Theorem C7_collection_reference (prefixes : list string) (e : ConciseExpression)
  (refOp valOp : ConciseOperand) (aspectId : string) (path : list string) :
  oneReference e refOp valOp ->
  extractAspectIdAndPath prefixes refOp = Ok (aspectId, path, true) ->
  (forall q,
      compileExpression prefixes e = Ok q ->
      operator e = Some "="
      /\ exists v, toAspectQueryValue valOp = Ok v
                   /\ q = AspectQueryValueInArray aspectId path v (negated e))
  /\ (forall v,
         operator e = Some "=" ->
         toAspectQueryValue valOp = Ok v ->
         compileExpression prefixes e =
         Ok (AspectQueryValueInArray aspectId path v (negated e)))
  /\ (forall op,
         operator e = Some op ->
         op <> "=" ->
         compileExpression prefixes e = Err CollectionOperator
         /\ kindOf CollectionOperator = UnsupportedOperatorForCollection).
Proof.
  intros Hone Hextract.
  rewrite (compile_one_reference prefixes e refOp valOp aspectId path true
             Hone Hextract).
  split; [| split].
  - intros q H. destruct (operator e) as [op |]; simpl in H; [| discriminate H].
    destruct (String.eqb op "=") eqn:Hop; [| discriminate H].
    apply String.eqb_eq in Hop. subst op. split; [reflexivity |].
    destruct (toAspectQueryValue valOp) as [v | err]; simpl in H;
      [| discriminate H].
    injection H as <-. exists v. split; reflexivity.
  - intros v Hop Hv. rewrite Hop, Hv. reflexivity.
  - intros op Hop Hneq. rewrite Hop. simpl.
    apply String.eqb_neq in Hneq. rewrite Hneq. split; reflexivity.
Qed.

(** C8.  An expression with one operand that is a reference compiles to
    [ArrayNotEmpty] of the resolved aspect id and path when the resolved
    reference is a collection reference, and to [Exists] of them
    otherwise, with the negated flag of the expression in both. *)
Theorem C8_single_reference (prefixes : list string) (e : ConciseExpression)
  (o : ConciseOperand) (ref : string) :
  operands e = [o] ->
  isRef o = true ->
  value o = JsString ref ->
  exists aspectId path isCollection,
    extractAspectIdAndPath prefixes o = Ok (aspectId, path, isCollection)
    /\ compileExpression prefixes e =
       Ok (if isCollection
           then AspectQueryArrayNotEmpty aspectId path (negated e)
           else AspectQueryExists aspectId path (negated e)).
Proof.
  intros Hops Href Hvalue.
  assert (Hex : exists t, extractAspectIdAndPath prefixes o = Ok t).
  { unfold extractAspectIdAndPath, refStringWithoutPrefixes, refString.
    rewrite Href, Hvalue. simpl.
    match goal with
    | |- context [if ?c then _ else _] => destruct c
    end; eexists; reflexivity. }
  destruct Hex as ([[aspectId path] isCollection] & Hex).
  exists aspectId, path, isCollection. split; [exact Hex |].
  unfold toAspectQuery. rewrite Hops, Hex. simpl.
  destruct isCollection; reflexivity.
Qed.

(** C9.  When the reference of a two-operand expression with one
    reference and one literal does not resolve to a collection reference,
    a successful compilation yields [WithValue] whose reference-first
    flag tells whether the first operand is the reference; and the
    compilation succeeds as soon as the literal converts and the operator
    is a comparison operator. *)
Theorem C9_reference_first (prefixes : list string) (e : ConciseExpression)
  (refOp valOp : ConciseOperand) (aspectId : string) (path : list string) :
  oneReference e refOp valOp ->
  extractAspectIdAndPath prefixes refOp = Ok (aspectId, path, false) ->
  (referenceFirst e = true <-> operands e = [refOp; valOp])
  /\ (forall q,
         compileExpression prefixes e = Ok q ->
         exists v sqlOp,
           q = AspectQueryWithValue aspectId path v sqlOp (negated e)
                 (referenceFirst e))
  /\ (forall v op sqlOp,
         toAspectQueryValue valOp = Ok v ->
         operator e = Some op ->
         toSqlOperator createUnsafely op = Ok sqlOp ->
         compileExpression prefixes e =
         Ok (AspectQueryWithValue aspectId path v sqlOp (negated e)
               (referenceFirst e))).
Proof.
  intros Hone Hextract.
  rewrite (compile_one_reference prefixes e refOp valOp aspectId path false
             Hone Hextract).
  destruct Hone as (Href & Hval & Hops).
  split; [| split].
  - unfold referenceFirst.
    destruct Hops as [Hops | Hops]; rewrite Hops; simpl.
    + rewrite Href. split; reflexivity.
    + rewrite Hval. split; [discriminate |].
      intros H. injection H as H1 H2. subst. congruence.
  - intros q H.
    apply bind_Ok_inv in H as (v & _ & H).
    apply bind_Ok_inv in H as (op & _ & H).
    apply bind_Ok_inv in H as (sqlOp & _ & H).
    injection H as <-. exists v, sqlOp. reflexivity.
  - intros v op sqlOp Hv Hop Hsql. rewrite Hv, Hop. simpl.
    rewrite Hsql. reflexivity.
Qed.

End Properties.

(** * Reference strings *)

Section References.

(** ** Splitting *)

Lemma filter_dropTrailingEmpty (l : list string) :
  filter (fun s => negb (String.eqb s "")) (dropTrailingEmpty l) =
  filter (fun s => negb (String.eqb s "")) l.
Proof.
  induction l as [| s l IH]; simpl; [reflexivity |].
  destruct (dropTrailingEmpty l) as [| r rest] eqn:Hd.
  - rewrite <- IH. destruct s; reflexivity.
  - simpl in *. rewrite IH. reflexivity.
Qed.

(** The segments kept by the resolver are the non-empty pieces between
    the dots: what [split] removes, the filter removes as well. *)
Lemma filter_split (s : string) :
  filter (fun s => negb (String.eqb s "")) (split s) =
  filter (fun s => negb (String.eqb s "")) (pieces s).
Proof.
  unfold split. destruct (pieces s) as [| a [| b l]];
    try reflexivity; apply filter_dropTrailingEmpty.
Qed.

Lemma slice_tail {A : Type} (l : list A) : slice 1 (List.length l) l = tl l.
Proof.
  unfold slice. destruct l as [| a l]; simpl; [reflexivity |].
  rewrite Nat.sub_0_r. apply firstn_all.
Qed.

Lemma slice_tail_removelast {A : Type} (l : list A) :
  slice 1 (List.length l - 1) l = removelast (tl l).
Proof.
  unfold slice. destruct l as [| a l]; simpl; [reflexivity |].
  rewrite Nat.sub_0_r, removelast_firstn_len.
  f_equal. lia.
Qed.

(** What the resolver returns, in terms of the segments: with a
    collection marker at the end of the last segment, the whole last
    segment is left out of the path. *)
Lemma extractAspectIdAndPath_segments (prefixes : list string)
  (o : ConciseOperand) (stripped : string) :
  refStringWithoutPrefixes prefixes o = Ok stripped ->
  let ref := dropLeadingDot stripped in
  let parts := filter (fun s => negb (String.eqb s "")) (pieces ref) in
  let isCollection := endsWith (last parts "") "[_]" in
  extractAspectIdAndPath prefixes o =
  Ok (if List.length parts <? 2 then (ref, [], false)
      else (hd "" parts,
            if isCollection then removelast (tl parts) else tl parts,
            isCollection)).
Proof.
  intros H ref parts isCollection. unfold extractAspectIdAndPath.
  rewrite H. simpl. fold ref. rewrite filter_split. fold parts.
  destruct (List.length parts <? 2); [reflexivity |].
  fold isCollection. destruct isCollection.
  - rewrite slice_tail_removelast. reflexivity.
  - rewrite slice_tail. reflexivity.
Qed.

(** ** The sorted prefixes *)

Lemma insertByLength_In (replace : bool) (p x : string) (l : list string) :
  In x (insertByLength replace p l) -> x = p \/ In x l.
Proof.
  induction l as [| q l IH]; simpl.
  - intros [<- | []]. left; reflexivity.
  - destruct (String.length q =? String.length p).
    + destruct replace.
      * intros [<- | H]; [left; reflexivity | right; right; exact H].
      * intros H; right; exact H.
    + destruct (String.length q <? String.length p).
      * intros [<- | H]; [left; reflexivity | right; exact H].
      * intros [<- | H]; [right; left; reflexivity |].
        destruct (IH H) as [-> | Hin];
          [left; reflexivity | right; right; exact Hin].
Qed.

Lemma insertByLength_sorted (replace : bool) (p : string) (l : list string) :
  StronglySorted longer l ->
  StronglySorted longer (insertByLength replace p l).
Proof.
  induction l as [| q l IH]; simpl; intros Hs.
  - constructor; constructor.
  - destruct (String.length q =? String.length p) eqn:Heq.
    + destruct replace; [| exact Hs].
      apply Nat.eqb_eq in Heq.
      inversion Hs as [| q' l' Hl Hq]; subst.
      constructor; [exact Hl |].
      rewrite Forall_forall in Hq |- *. intros x Hx.
      specialize (Hq x Hx). unfold longer in *. lia.
    + destruct (String.length q <? String.length p) eqn:Hlt.
      * apply Nat.ltb_lt in Hlt. constructor; [exact Hs |].
        inversion Hs as [| q' l' Hl Hq]; subst.
        constructor; [exact Hlt |].
        rewrite Forall_forall in Hq |- *. intros x Hx.
        specialize (Hq x Hx). unfold longer in *. lia.
      * apply Nat.ltb_ge in Hlt. apply Nat.eqb_neq in Heq.
        inversion Hs as [| q' l' Hl Hq]; subst.
        constructor; [apply IH, Hl |].
        rewrite Forall_forall in Hq |- *. intros x Hx.
        apply insertByLength_In in Hx as [-> | Hx];
          [unfold longer; lia | apply Hq, Hx].
Qed.

Lemma insertByLength_Permutation (replace : bool) (p : string) (l : list string) :
  ~ In (String.length p) (map String.length l) ->
  Permutation (insertByLength replace p l) (p :: l).
Proof.
  induction l as [| q l IH]; simpl; intros Hnew; [reflexivity |].
  destruct (String.length q =? String.length p) eqn:Heq.
  - apply Nat.eqb_eq in Heq. exfalso. apply Hnew. left. exact Heq.
  - destruct (String.length q <? String.length p); [reflexivity |].
    rewrite IH by (intros H; apply Hnew; right; exact H).
    apply perm_swap.
Qed.

Lemma fold_insertByLength_sorted (replace : bool) (prefixes acc : list string) :
  StronglySorted longer acc ->
  StronglySorted longer
    (fold_left (fun acc p => insertByLength replace p acc) prefixes acc).
Proof.
  revert acc; induction prefixes as [| p ps IH]; intros acc Hs; simpl;
    [exact Hs | apply IH, insertByLength_sorted, Hs].
Qed.

Lemma fold_insertByLength_Permutation (replace : bool)
  (prefixes acc : list string) :
  NoDup (map String.length (acc ++ prefixes)) ->
  Permutation
    (fold_left (fun acc p => insertByLength replace p acc) prefixes acc)
    (acc ++ prefixes).
Proof.
  revert acc; induction prefixes as [| p ps IH]; intros acc Hnd; simpl.
  - rewrite app_nil_r. reflexivity.
  - assert (Hp : Permutation (insertByLength replace p acc) (p :: acc)).
    { apply insertByLength_Permutation.
      rewrite map_app in Hnd. simpl in Hnd.
      apply NoDup_remove_2 in Hnd. intros H. apply Hnd.
      apply in_or_app. left. exact H. }
    assert (Hq : Permutation (insertByLength replace p acc ++ ps)
                   (acc ++ p :: ps)).
    { rewrite Hp. simpl. apply Permutation_middle. }
    rewrite IH.
    + exact Hq.
    + apply (Permutation_NoDup (l := map String.length (acc ++ p :: ps)));
        [| exact Hnd].
      apply Permutation_map. symmetry. exact Hq.
Qed.

(** The prefixes are always tried from the longest to the shortest, and
    every prefix of the set is tried when no two of them have the same
    length; both hold whichever of two prefixes of one length the sorted
    set keeps. *)
Lemma sortedPrefixesWith_sorted (replace : bool) (prefixes : list string) :
  StronglySorted longer (sortedPrefixesWith replace prefixes).
Proof. apply fold_insertByLength_sorted. constructor. Qed.

Lemma sortedPrefixesWith_distinct_lengths (replace : bool)
  (prefixes : list string) :
  NoDup (map String.length prefixes) ->
  Permutation (sortedPrefixesWith replace prefixes) prefixes.
Proof.
  intros H. apply (fold_insertByLength_Permutation replace prefixes []), H.
Qed.

Lemma sortedPrefixes_sorted (prefixes : list string) :
  StronglySorted longer (sortedPrefixes prefixes).
Proof. apply sortedPrefixesWith_sorted. Qed.

Lemma sortedPrefixes_distinct_lengths (prefixes : list string) :
  NoDup (map String.length prefixes) ->
  Permutation (sortedPrefixes prefixes) prefixes.
Proof. apply sortedPrefixesWith_distinct_lengths. Qed.

(** C4.  The reference [ds.tags[_]] has the two segments [ds] and
    [tags[_]], the last of which ends with the collection marker; the
    resolver flags the collection and returns the empty path: the whole
    segment [tags[_]] is left out, not only its marker.  The same happens
    below a stripped prefix. *)
Theorem C4_collection_segment_dropped :
  filter (fun s => negb (String.eqb s "")) (split "ds.tags[_]") =
  ["ds"; "tags[_]"]
  /\ extractAspectIdAndPath [] (mkOperand true (JsString "ds.tags[_]")) =
     Ok ("ds", [], true)
  /\ extractAspectIdAndPath ["input.object.record"]
       (mkOperand true
          (JsString "input.object.record.access-control.preAuthorisedPermissionIds[_]")) =
     Ok ("access-control", [], true).
Proof. repeat split; reflexivity. Qed.

(** C5.  Of the prefixes [ab] and [cd], which have the same length, the
    sorted prefixes keep one only, and which one depends on the order in
    which the set yields them: in one of the two orders the reference [cdx]
    keeps its leading [cd] although [cd] is in the set, in the other order
    [cd] is stripped.  This holds whichever of two prefixes of one length
    the sorted set keeps; with the [TreeSet] of Scala 2.12, which keeps the
    later one, the order that leaves [cdx] as it is is [cd], [ab]. *)
Theorem C5_equal_length_prefix_not_stripped :
  In "cd" ["ab"; "cd"] /\ In "cd" ["cd"; "ab"]
  /\ startsWith "cdx" "cd" = true
  /\ (forall replace : bool,
        sortedPrefixesWith replace ["ab"; "cd"] = [if replace then "cd" else "ab"]
        /\ sortedPrefixesWith replace ["cd"; "ab"] = [if replace then "ab" else "cd"]
        /\ fold_left stripPrefix (sortedPrefixesWith replace ["ab"; "cd"]) "cdx" =
           (if replace then "x" else "cdx")
        /\ fold_left stripPrefix (sortedPrefixesWith replace ["cd"; "ab"]) "cdx" =
           (if replace then "cdx" else "x"))
  /\ refStringWithoutPrefixes ["cd"; "ab"] (mkOperand true (JsString "cdx")) =
     Ok "cdx"
  /\ refStringWithoutPrefixes ["ab"; "cd"] (mkOperand true (JsString "cdx")) =
     Ok "x".
Proof.
  split; [simpl; auto |]. split; [simpl; auto |]. split; [reflexivity |].
  split; [| split; reflexivity].
  intros replace. destruct replace; repeat split; reflexivity.
Qed.

End References.

(** * The compiler run on decisions, with SQL fragments as text *)

(** Truthiness of the values of a rule. *)
Example truthiness_table :
  map isTrueEquivalent
      [JsFalse; JsNull; JsString ""; JsNumber (mkBigDecimal 0 2); JsArray [];
       JsTrue; JsString "x"; JsNumber (mkBigDecimal 5 1); JsArray [JsNull];
       JsObject []] =
  [false; false; false; false; false; true; true; true; true; true].
Proof. reflexivity. Qed.

(** A rule with the value [false] and one unary expression: the group is
    negated and holds the [Exists] query. *)
Example rule_with_false_value :
  toAspectQueryGroup textSql aspectsPrefix
    (mkRule true JsFalse "data.object.record.allow" "allow"
       [mkExpression false None
          [mkOperand true
             (JsString "input.object.record.aspects.access-control.ownerId")]]) =
  Ok (mkGroup [AspectQueryExists "access-control" ["ownerId"] false] true true).
Proof. reflexivity. Qed.

Lemma C1_empty_rules_witness :
  hasResidualRules emptyRulesDecision = true
  /\ residualRules emptyRulesDecision = Some []
  /\ toAspectQueryGroups textSql true false defaultPrefixes emptyRulesDecision
     = Ok []
  /\ toSql textSql textJoinWithOr textRoundBracket true false textGroupToSql
       defaultPrefixes defaultRecordIdSqlRef defaultTenantIdSqlRef
       emptyRulesDecision = Ok None.
Proof.
  split; [reflexivity | split; [reflexivity |]].
  apply (C1_empty_rules_no_condition string textSql textJoinWithOr
           textRoundBracket true false textGroupToSql defaultPrefixes
           defaultRecordIdSqlRef defaultTenantIdSqlRef emptyRulesDecision);
    reflexivity.
Defined.

(** C1, as stated, fails on the decision with residual rules and the empty
    list of them: its groups are the empty list, yet [toSql] returns no SQL
    condition for it, hence not the condition [FALSE] either. *)
Lemma C1_empty_rules_not_FALSE :
  ~ (toAspectQueryGroups textSql true false defaultPrefixes emptyRulesDecision
     = Ok []
     /\ exists sql,
         toSql textSql textJoinWithOr textRoundBracket true false
           textGroupToSql defaultPrefixes defaultRecordIdSqlRef
           defaultTenantIdSqlRef emptyRulesDecision = Ok (Some sql)).
Proof. intros [_ [sql H]]. discriminate H. Qed.

Lemma C3_unconditional_witness :
  hasResidualRules UnconditionalTrueDecision = false
  /\ exists g,
      toAspectQueryGroups textSql true false defaultPrefixes
        UnconditionalTrueDecision = Ok [g]
      /\ queries g = [AspectQueryTrue]
      /\ joinWithAnd g = true
      /\ group_negated g = false.
Proof.
  split; [reflexivity |].
  apply (C3_unconditional_decision string textSql true false defaultPrefixes
           UnconditionalTrueDecision).
  reflexivity.
Defined.

Lemma C6_unsupported_shapes_witness :
  (exists err,
      toAspectQuery textSql aspectsPrefix
        (mkExpression false (Some "=") [ownerRef; tagsRef]) = Err err
      /\ kindOf err = UnsupportedExpressionShape)
  /\ toAspectQuery textSql aspectsPrefix
       (mkExpression false (Some "=") [ownerRef; abcLiteral; abcLiteral]) =
     Err MoreThanTwoOperands.
Proof.
  split.
  - apply (proj1 (C6_unsupported_shapes string textSql aspectsPrefix
                    (mkExpression false (Some "=") [ownerRef; tagsRef]))
             ownerRef tagsRef); reflexivity.
  - apply (proj2 (C6_unsupported_shapes string textSql aspectsPrefix
                    (mkExpression false (Some "=") [ownerRef; abcLiteral; abcLiteral]))).
    simpl. lia.
Defined.

Lemma C7_collection_reference_witness :
  oneReference (mkExpression true (Some "=") [abcLiteral; tagsRef]) tagsRef abcLiteral
  /\ extractAspectIdAndPath aspectsPrefix tagsRef = Ok ("ds", ["meta"], true)
  /\ toAspectQuery textSql aspectsPrefix (mkExpression true (Some "=") [abcLiteral; tagsRef])
     = Ok (AspectQueryValueInArray "ds" ["meta"]
             (AspectQueryStringValue "abc") true).
Proof.
  assert (Hone : oneReference (mkExpression true (Some "=") [abcLiteral; tagsRef])
                   tagsRef abcLiteral).
  { split; [reflexivity | split; [reflexivity | right; reflexivity]]. }
  split; [exact Hone | split; [reflexivity |]].
  apply (proj1 (proj2 (C7_collection_reference string textSql aspectsPrefix
                         (mkExpression true (Some "=") [abcLiteral; tagsRef])
                         tagsRef abcLiteral "ds" ["meta"] Hone eq_refl)));
    reflexivity.
Defined.

Lemma C8_single_reference_witness :
  exists aspectId path isCollection,
    extractAspectIdAndPath aspectsPrefix ownerRef = Ok (aspectId, path, isCollection)
    /\ toAspectQuery textSql aspectsPrefix (mkExpression true None [ownerRef]) =
       Ok (if isCollection
           then AspectQueryArrayNotEmpty aspectId path true
           else AspectQueryExists aspectId path true).
Proof.
  apply (C8_single_reference string textSql aspectsPrefix
           (mkExpression true None [ownerRef]) ownerRef
           "input.object.record.aspects.ds.owner");
    reflexivity.
Defined.

Lemma C9_reference_first_witness :
  oneReference (mkExpression false (Some "=") [ownerRef; abcLiteral]) ownerRef abcLiteral
  /\ extractAspectIdAndPath aspectsPrefix ownerRef = Ok ("ds", ["owner"], false)
  /\ toAspectQuery textSql aspectsPrefix (mkExpression false (Some "=") [ownerRef; abcLiteral])
     = Ok (AspectQueryWithValue "ds" ["owner"] (AspectQueryStringValue "abc")
             "=" false true).
Proof.
  assert (Hone : oneReference (mkExpression false (Some "=") [ownerRef; abcLiteral])
                   ownerRef abcLiteral).
  { split; [reflexivity | split; [reflexivity | left; reflexivity]]. }
  split; [exact Hone | split; [reflexivity |]].
  apply (proj2 (proj2 (C9_reference_first string textSql aspectsPrefix
                         (mkExpression false (Some "=") [ownerRef; abcLiteral])
                         ownerRef abcLiteral "ds" ["owner"] Hone eq_refl))
           (AspectQueryStringValue "abc") "=" "=");
    reflexivity.
Defined.

Lemma C10_absent_rules_witness :
  hasResidualRules absentRulesDecision = true
  /\ residualRules absentRulesDecision = None
  /\ toAspectQueryGroups textSql true false defaultPrefixes absentRulesDecision
     = Ok []
  /\ toSql textSql textJoinWithOr textRoundBracket true false textGroupToSql
       defaultPrefixes defaultRecordIdSqlRef defaultTenantIdSqlRef
       absentRulesDecision = Ok None.
Proof.
  split; [reflexivity | split; [reflexivity |]].
  destruct (C10_absent_rules_no_condition string textSql textJoinWithOr
              textRoundBracket true false textGroupToSql defaultPrefixes
              defaultRecordIdSqlRef defaultTenantIdSqlRef absentRulesDecision
              eq_refl eq_refl) as (Hg & Hs & _).
  split; [exact Hg | exact Hs].
Defined.


(** * Further properties of the operands and of the reference strings *)

Section Operands.

Lemma startsWith_append (p r : string) : startsWith (String.append p r) p = true.
Proof.
  unfold startsWith. induction p as [| a p IH]; simpl.
  - destruct r; reflexivity.
  - destruct (ascii_dec a a) as [_ | Hne]; [exact IH | contradiction].
Qed.

Lemma substringFrom_append (p r : string) :
  substringFrom (String.length p) (String.append p r) = r.
Proof. induction p as [| a p IH]; simpl; [reflexivity | exact IH]. Qed.

Lemma startsWith_decompose (ref p : string) :
  startsWith ref p = true ->
  ref = String.append p (substringFrom (String.length p) ref).
Proof.
  unfold startsWith. revert ref; induction p as [| a p IH]; intros ref H; simpl.
  - reflexivity.
  - destruct ref as [| b ref]; simpl in H; [discriminate H |].
    destruct (ascii_dec a b) as [<- | _]; [| discriminate H].
    simpl. f_equal. apply IH, H.
Qed.

Lemma append_assoc (a b c : string) :
  String.append (String.append a b) c = String.append a (String.append b c).
Proof. induction a as [| x a IH]; simpl; [reflexivity | f_equal; exact IH]. Qed.

Lemma stripPrefix_suffix (ref p : string) :
  exists removed, ref = String.append removed (stripPrefix ref p).
Proof.
  unfold stripPrefix. destruct (startsWith ref p) eqn:H.
  - exists p. apply startsWith_decompose, H.
  - exists "". reflexivity.
Qed.

Lemma fold_stripPrefix_suffix (l : list string) (ref : string) :
  exists removed, ref = String.append removed (fold_left stripPrefix l ref).
Proof.
  revert ref; induction l as [| p l IH]; intros ref; simpl.
  - exists "". reflexivity.
  - destruct (stripPrefix_suffix ref p) as (r1 & H1).
    destruct (IH (stripPrefix ref p)) as (r2 & H2).
    exists (String.append r1 r2). rewrite append_assoc, <- H2. exact H1.
Qed.

(** X1.  An operand serves as a reference or as a value, never as both: when
    [refString] returns a string, [toAspectQueryValue] fails on the operand
    with the reference-as-value error, and when [toAspectQueryValue]
    returns a value, [refString] fails with the value-as-reference error. *)
Theorem operand_reference_xor_value (o : ConciseOperand) :
  (forall s, refString o = Ok s ->
             isRef o = true /\ value o = JsString s
             /\ toAspectQueryValue o = Err RefToValue)
  /\ (forall v, toAspectQueryValue o = Ok v ->
                isRef o = false /\ refString o = Err NonRefToRefString).
Proof.
  unfold refString, toAspectQueryValue. destruct o as [r v]; simpl.
  destruct r; simpl; split.
  - intros s H. destruct v; try discriminate H. injection H as <-.
    repeat split; reflexivity.
  - intros w H. discriminate H.
  - intros s H. discriminate H.
  - intros w _. split; reflexivity.
Qed.

(** X2.  The query value keeps the literal: two operands that convert to the
    same query value are the same operand. *)
Theorem toAspectQueryValue_injective (o1 o2 : ConciseOperand) (v : AspectQueryValue) :
  toAspectQueryValue o1 = Ok v ->
  toAspectQueryValue o2 = Ok v ->
  o1 = o2.
Proof.
  unfold toAspectQueryValue.
  destruct o1 as [r1 v1], o2 as [r2 v2]; simpl.
  destruct r1; [discriminate |]. destruct r2; [intros _; discriminate |].
  intros H1 H2.
  destruct v1; try discriminate H1; destruct v2; try discriminate H2;
    congruence.
Qed.

(** X3.  Stripping the prefixes only removes leading characters: the result is
    a suffix of the reference string. *)
Theorem refStringWithoutPrefixes_suffix (prefixes : list string)
  (o : ConciseOperand) (stripped : string) :
  refStringWithoutPrefixes prefixes o = Ok stripped ->
  exists removed,
    refString o = Ok (String.append removed stripped)
    /\ String.length stripped <= String.length (String.append removed stripped).
Proof.
  unfold refStringWithoutPrefixes. intros H.
  destruct (refString o) as [ref | e]; simpl in H; [| discriminate H].
  injection H as <-.
  destruct (fold_stripPrefix_suffix (sortedPrefixes prefixes) ref) as (removed & Hr).
  exists removed. rewrite <- Hr. split; [reflexivity |].
  rewrite Hr at 2. clear Hr.
  induction removed as [| a removed IH]; simpl; [apply Nat.le_refl | lia].
Qed.

(** X4.  With one prefix in the set, as with the default [object.record]: a
    reference that starts with the prefix loses exactly the prefix, and a
    reference that does not start with it is returned unchanged. *)
Theorem refStringWithoutPrefixes_single (p ref rest : string) :
  (refStringWithoutPrefixes [p] (mkOperand true (JsString (String.append p rest)))
   = Ok rest)
  /\ (startsWith ref p = false ->
      refStringWithoutPrefixes [p] (mkOperand true (JsString ref)) = Ok ref).
Proof.
  unfold refStringWithoutPrefixes, refString, sortedPrefixes, sortedPrefixesWith,
    stripPrefix; simpl.
  split.
  - rewrite startsWith_append, substringFrom_append. reflexivity.
  - intros H. rewrite H. reflexivity.
Qed.

End Operands.

(** * Which prefixes are tried *)

Section SortedPrefixes.

Lemma longer_Forall_trans (p q : string) (l : list string) :
  longer p q -> Forall (longer q) l -> Forall (longer p) l.
Proof.
  intros Hpq Hl. rewrite Forall_forall in Hl |- *. intros x Hx.
  specialize (Hl x Hx). unfold longer in *. lia.
Qed.

(** A prefix whose length is already among the sorted ones changes
    nothing in a sorted set that keeps its members. *)
Lemma insertByLength_same_length (p : string) (l : list string) :
  StronglySorted longer l ->
  In (String.length p) (map String.length l) ->
  insertByLength false p l = l.
Proof.
  induction l as [| q l IH]; simpl; intros Hs Hin; [contradiction |].
  destruct (String.length q =? String.length p) eqn:Heq; [reflexivity |].
  apply Nat.eqb_neq in Heq.
  destruct Hin as [Hq | Hin]; [contradiction |].
  inversion Hs as [| q' l' Hl Hq]; subst.
  destruct (String.length q <? String.length p) eqn:Hlt.
  - apply Nat.ltb_lt in Hlt. exfalso.
    apply in_map_iff in Hin as (x & Hx & Hxin).
    rewrite Forall_forall in Hq. specialize (Hq x Hxin).
    unfold longer in Hq. lia.
  - f_equal. apply IH; assumption.
Qed.

Lemma insertByLength_new_length (replace : bool) (p x : string)
  (l : list string) :
  ~ In (String.length p) (map String.length l) ->
  In x (insertByLength replace p l) <-> x = p \/ In x l.
Proof.
  intros Hnew. split.
  - apply insertByLength_In.
  - intros H. apply (Permutation_in x (l := p :: l)).
    + symmetry. apply insertByLength_Permutation, Hnew.
    + destruct H as [-> | H]; [left; reflexivity | right; exact H].
Qed.

Lemma fold_insertByLength_kept (prefixes acc : list string) (x : string) :
  StronglySorted longer acc ->
  In x (fold_left (fun acc p => insertByLength false p acc) prefixes acc) <->
  In x acc
  \/ (~ In (String.length x) (map String.length acc)
      /\ firstOfItsLength x prefixes).
Proof.
  unfold firstOfItsLength.
  revert acc; induction prefixes as [| p ps IH]; intros acc Hs; simpl.
  - split; [intros H; left; exact H | intros [H | [_ H]]; [exact H | discriminate H]].
  - rewrite (IH (insertByLength false p acc) (insertByLength_sorted false p acc Hs)).
    destruct (in_dec Nat.eq_dec (String.length p) (map String.length acc))
      as [Hold | Hnew].
    + rewrite (insertByLength_same_length p acc Hs Hold).
      destruct (String.length p =? String.length x) eqn:Hpx.
      * apply Nat.eqb_eq in Hpx. rewrite <- Hpx. tauto.
      * reflexivity.
    + assert (Hmap : forall n,
                 In n (map String.length (insertByLength false p acc)) <->
                 n = String.length p \/ In n (map String.length acc)).
      { intros n. rewrite !in_map_iff. split.
        - intros (y & <- & Hy). apply insertByLength_new_length in Hy; [| exact Hnew].
          destruct Hy as [-> | Hy]; [left; reflexivity | right; exists y; auto].
        - intros [-> | (y & <- & Hy)].
          + exists p. split; [reflexivity |].
            apply insertByLength_new_length; [exact Hnew | left; reflexivity].
          + exists y. split; [reflexivity |].
            apply insertByLength_new_length; [exact Hnew | right; exact Hy]. }
      rewrite (insertByLength_new_length false p x acc Hnew), Hmap.
      destruct (String.length p =? String.length x) eqn:Hpx.
      * apply Nat.eqb_eq in Hpx. split.
        -- intros [[-> | H] | [H _]].
           ++ right. split; [exact Hnew | reflexivity].
           ++ left; exact H.
           ++ exfalso. apply H. left. symmetry. exact Hpx.
        -- intros [H | [_ H]].
           ++ left; right; exact H.
           ++ injection H as ->. left; left; reflexivity.
      * apply Nat.eqb_neq in Hpx. split.
        -- intros [[-> | H] | [H1 H2]].
           ++ contradiction Hpx; reflexivity.
           ++ left; exact H.
           ++ right. split; [| exact H2]. intros H. apply H1. right. exact H.
        -- intros [H | [H1 H2]].
           ++ left; right; exact H.
           ++ right. split; [| exact H2].
              intros [H | H]; [apply Hpx; symmetry; exact H | apply H1, H].
Qed.

(** In a sorted set that replaces its members, a new prefix takes the
    place of the member of its length. *)
Lemma insertByLength_replaced (p x : string) (l : list string) :
  StronglySorted longer l ->
  In x (insertByLength true p l) <->
  x = p \/ (In x l /\ String.length x <> String.length p).
Proof.
  induction l as [| q l IH]; simpl; intros Hs.
  - split; [intros [<- | []]; left; reflexivity | intros [-> | [[] _]]; left; reflexivity].
  - inversion Hs as [| q' l' Hl Hq]; subst.
    rewrite Forall_forall in Hq. unfold longer in Hq.
    destruct (String.length q =? String.length p) eqn:Heq.
    + apply Nat.eqb_eq in Heq. simpl. split.
      * intros [<- | H]; [left; reflexivity |].
        right. split; [right; exact H |]. specialize (Hq x H). lia.
      * intros [-> | [[<- | H] Hne]];
          [left; reflexivity | contradiction | right; exact H].
    + apply Nat.eqb_neq in Heq.
      destruct (String.length q <? String.length p) eqn:Hlt.
      * apply Nat.ltb_lt in Hlt. simpl. split.
        -- intros [<- | [<- | H]]; [left; reflexivity | right | right].
           ++ split; [left; reflexivity | exact Heq].
           ++ split; [right; exact H |]. specialize (Hq x H). lia.
        -- intros [-> | [H _]]; [left; reflexivity | right; exact H].
      * simpl. rewrite (IH Hl). split.
        -- intros [<- | [-> | [H Hne]]].
           ++ right. split; [left; reflexivity | exact Heq].
           ++ left; reflexivity.
           ++ right. split; [right; exact H | exact Hne].
        -- intros [-> | [[<- | H] Hne]].
           ++ right; left; reflexivity.
           ++ left; reflexivity.
           ++ right; right. split; assumption.
Qed.

Lemma find_app {A : Type} (f : A -> bool) (l1 l2 : list A) :
  find f (l1 ++ l2) =
  match find f l1 with Some y => Some y | None => find f l2 end.
Proof.
  induction l1 as [| a l1 IH]; simpl; [reflexivity |].
  destruct (f a); [reflexivity | exact IH].
Qed.

Lemma fold_insertByLength_replaced (prefixes acc : list string) (x : string) :
  StronglySorted longer acc ->
  In x (fold_left (fun acc p => insertByLength true p acc) prefixes acc) <->
  lastOfItsLength x prefixes
  \/ (find (fun q => String.length q =? String.length x) (rev prefixes) = None
      /\ In x acc).
Proof.
  unfold lastOfItsLength, firstOfItsLength.
  revert acc; induction prefixes as [| p ps IH]; intros acc Hs; simpl.
  - split; [intros H; right; split; [reflexivity | exact H] |
            intros [H | [_ H]]; [discriminate H | exact H]].
  - rewrite (IH (insertByLength true p acc) (insertByLength_sorted true p acc Hs)).
    rewrite find_app. simpl.
    destruct (find (fun q => String.length q =? String.length x) (rev ps))
      as [y |].
    + split; (intros [H | [H _]]; [left; exact H | discriminate H]).
    + rewrite (insertByLength_replaced p x acc Hs).
      destruct (String.length p =? String.length x) eqn:Hpx.
      * apply Nat.eqb_eq in Hpx. split.
        -- intros [H | [_ [-> | [_ Hne]]]];
             [discriminate H | left; reflexivity | congruence].
        -- intros [H | [H _]]; [| discriminate H].
           injection H as ->. right. split; [reflexivity | left; reflexivity].
      * apply Nat.eqb_neq in Hpx. split.
        -- intros [H | [_ [-> | [H _]]]];
             [discriminate H | contradiction Hpx; reflexivity |].
           right. split; [reflexivity | exact H].
        -- intros [H | [_ H]]; [discriminate H |].
           right. split; [reflexivity |]. right. split; [exact H | congruence].
Qed.

(** X5.  Of the prefixes of the set, the ones tried on a reference are, for
    each length, one prefix of that length and no other: the last of that
    length the set yields, with the sorted set of Scala 2.12, which
    replaces a member by a new one of its length, and the first with a
    sorted set that keeps its members.  In both cases they are tried from
    the longest to the shortest. *)
Theorem sortedPrefixes_kept (prefixes : list string) :
  (forall p, In p (sortedPrefixes prefixes) <-> lastOfItsLength p prefixes)
  /\ (forall p, In p (sortedPrefixesWith false prefixes) <->
                firstOfItsLength p prefixes)
  /\ (forall replace,
        StronglySorted longer (sortedPrefixesWith replace prefixes)).
Proof.
  split; [| split; [| intros replace; apply sortedPrefixesWith_sorted]].
  - intros p. unfold sortedPrefixes, sortedPrefixesWith.
    rewrite (fold_insertByLength_replaced prefixes [] p) by constructor.
    simpl. tauto.
  - intros p. unfold sortedPrefixesWith.
    rewrite (fold_insertByLength_kept prefixes [] p) by constructor.
    simpl. tauto.
Qed.

Lemma sorted_Permutation_eq (l1 l2 : list string) :
  StronglySorted longer l1 -> StronglySorted longer l2 ->
  Permutation l1 l2 -> l1 = l2.
Proof.
  revert l2; induction l1 as [| a l1 IH]; intros l2 H1 H2 Hp.
  - apply Permutation_nil in Hp. symmetry. exact Hp.
  - destruct l2 as [| b l2].
    + symmetry in Hp. apply Permutation_nil in Hp. discriminate Hp.
    + inversion H1 as [| a' l1' Hs1 Hf1]; subst.
      inversion H2 as [| b' l2' Hs2 Hf2]; subst.
      assert (Hab : a = b).
      { assert (Ha : In a (b :: l2))
          by (apply (Permutation_in a Hp); left; reflexivity).
        assert (Hb : In b (a :: l1))
          by (apply (Permutation_in b (Permutation_sym Hp)); left; reflexivity).
        destruct Ha as [Ha | Ha]; [symmetry; exact Ha |].
        destruct Hb as [Hb | Hb]; [exact Hb |].
        rewrite Forall_forall in Hf1, Hf2.
        specialize (Hf1 b Hb). specialize (Hf2 a Ha).
        unfold longer in *. lia. }
      subst b. f_equal. apply IH; try assumption.
      apply Permutation_cons_inv in Hp. exact Hp.
Qed.

(** X6.  When no two prefixes of the set have the same length, every prefix is
    tried, and the result does not depend on the order in which the set
    yields its members. *)
Theorem refStringWithoutPrefixes_distinct_lengths (prefixes prefixes' : list string)
  (o : ConciseOperand) :
  NoDup (map String.length prefixes) ->
  Permutation prefixes prefixes' ->
  Permutation (sortedPrefixes prefixes) prefixes
  /\ refStringWithoutPrefixes prefixes o = refStringWithoutPrefixes prefixes' o.
Proof.
  intros Hnd Hp.
  assert (Hnd' : NoDup (map String.length prefixes'))
    by (apply (Permutation_NoDup (Permutation_map _ Hp)), Hnd).
  split; [apply sortedPrefixes_distinct_lengths, Hnd |].
  unfold refStringWithoutPrefixes.
  rewrite (sorted_Permutation_eq (sortedPrefixes prefixes) (sortedPrefixes prefixes')).
  - reflexivity.
  - apply sortedPrefixes_sorted.
  - apply sortedPrefixes_sorted.
  - rewrite (sortedPrefixes_distinct_lengths prefixes Hnd).
    rewrite (sortedPrefixes_distinct_lengths prefixes' Hnd').
    exact Hp.
Qed.

End SortedPrefixes.

(** * Further properties of the resolver *)

Section Resolver.

Lemma pieces_not_nil (s : string) : pieces s <> [].
Proof.
  destruct s as [| c s]; simpl; [discriminate |].
  destruct (Ascii.eqb c "."%char); [discriminate |].
  destruct (pieces s); discriminate.
Qed.

Lemma pieces_no_dot (s : string) :
  Forall (fun piece => ~ In "."%char (list_ascii_of_string piece)) (pieces s).
Proof.
  induction s as [| c s IH]; simpl.
  - constructor; [intros [] | constructor].
  - destruct (Ascii.eqb c "."%char) eqn:Hc.
    + constructor; [intros [] | exact IH].
    + apply Ascii.eqb_neq in Hc.
      destruct (pieces s) as [| seg rest].
      * constructor; [| constructor]. simpl. intros [H | []]. congruence.
      * inversion IH as [| seg' rest' Hseg Hrest]; subst.
        constructor; [| exact Hrest].
        simpl. intros [H | H]; [congruence | exact (Hseg H)].
Qed.

(** Joining the pieces of a string with dots gives the string back. *)
Lemma concat_pieces (s : string) : String.concat "." (pieces s) = s.
Proof.
  induction s as [| c s IH]; simpl; [reflexivity |].
  destruct (Ascii.eqb c "."%char) eqn:Hc.
  - apply Ascii.eqb_eq in Hc. subst c.
    destruct (pieces s) as [| seg rest] eqn:Hp;
      [exfalso; exact (pieces_not_nil s Hp) |].
    simpl in *. rewrite IH. reflexivity.
  - destruct (pieces s) as [| seg rest] eqn:Hp;
      [exfalso; exact (pieces_not_nil s Hp) |].
    destruct rest as [| seg' rest]; simpl in *; rewrite <- IH; reflexivity.
Qed.

Lemma filter_all {A : Type} (f : A -> bool) (l : list A) :
  Forall (fun x => f x = true) l -> filter f l = l.
Proof.
  induction 1 as [| x l Hx _ IH]; simpl; [reflexivity |].
  rewrite Hx, IH. reflexivity.
Qed.

Lemma slice_In {A : Type} (from until : nat) (l : list A) (x : A) :
  In x (slice from until l) -> In x l.
Proof.
  unfold slice. intros H.
  rewrite <- (firstn_skipn from l). apply in_or_app. right.
  rewrite <- (firstn_skipn (until - from) (skipn from l)).
  apply in_or_app. left. exact H.
Qed.

Lemma parts_are_segments (ref x : string) :
  In x (filter (fun s => negb (String.eqb s "")) (pieces ref)) -> isSegment x.
Proof.
  intros H. apply filter_In in H as [Hin Hne]. split.
  - apply negb_true_iff, String.eqb_neq in Hne. exact Hne.
  - pose proof (pieces_no_dot ref) as Hd. rewrite Forall_forall in Hd.
    apply Hd, Hin.
Qed.

(** X7.  The resolver fails exactly when the operand has no reference string,
    and then with the error of [refString]: on every reference with a
    string value it returns. *)
Theorem extractAspectIdAndPath_fails_as_refString (prefixes : list string)
  (o : ConciseOperand) (e : Error) :
  extractAspectIdAndPath prefixes o = Err e <-> refString o = Err e.
Proof.
  unfold extractAspectIdAndPath, refStringWithoutPrefixes.
  destruct (refString o) as [ref | e']; simpl.
  - match goal with
    | |- context [if ?c then _ else _] => destruct c
    end; split; discriminate.
  - split; intros H; injection H as ->; reflexivity.
Qed.

(** X8.  Whenever the resolver returns a path that is not empty, or flags a
    collection, the aspect id and every segment of the path are not empty
    and hold no dot. *)
Theorem extractAspectIdAndPath_wellformed (prefixes : list string)
  (o : ConciseOperand) (aspectId : string) (path : list string)
  (isCollection : bool) :
  extractAspectIdAndPath prefixes o = Ok (aspectId, path, isCollection) ->
  path <> [] \/ isCollection = true ->
  isSegment aspectId /\ Forall isSegment path.
Proof.
  unfold extractAspectIdAndPath. intros H Hsome.
  destruct (refStringWithoutPrefixes prefixes o) as [stripped | e];
    simpl in H; [| discriminate H].
  rewrite filter_split in H.
  set (parts := filter (fun s => negb (String.eqb s ""))
                       (pieces (dropLeadingDot stripped))) in *.
  destruct (List.length parts <? 2) eqn:Hlen.
  - injection H as _ Hp Hc. subst. destruct Hsome as [Hp | Hc];
      [contradiction Hp; reflexivity | discriminate Hc].
  - injection H as Ha Hp Hc. apply Nat.ltb_ge in Hlen. split.
    + subst aspectId. apply (parts_are_segments (dropLeadingDot stripped)).
      fold parts. destruct parts as [| x rest]; simpl in *; [lia | left; reflexivity].
    + subst path. rewrite Forall_forall. intros x Hx.
      apply slice_In in Hx.
      apply (parts_are_segments (dropLeadingDot stripped)). exact Hx.
Qed.

(** X9.  When the resolver does not flag a collection and the reference, once
    stripped of the prefixes and of a leading dot, has no empty piece
    between its dots, joining the aspect id and the path with dots gives
    that reference back. *)
Theorem extractAspectIdAndPath_rejoin (prefixes : list string)
  (o : ConciseOperand) (stripped aspectId : string) (path : list string) :
  refStringWithoutPrefixes prefixes o = Ok stripped ->
  extractAspectIdAndPath prefixes o = Ok (aspectId, path, false) ->
  Forall (fun piece => piece <> "") (pieces (dropLeadingDot stripped)) ->
  String.concat "." (aspectId :: path) = dropLeadingDot stripped.
Proof.
  intros Hs He Hpieces.
  rewrite (extractAspectIdAndPath_segments prefixes o stripped Hs) in He.
  cbv zeta in He.
  rewrite (filter_all _ (pieces (dropLeadingDot stripped))) in He.
  - destruct (List.length (pieces (dropLeadingDot stripped)) <? 2).
    + injection He as <- <-. reflexivity.
    + injection He as Ha Hp Hc. rewrite Hc in Hp. subst.
      pose proof (pieces_not_nil (dropLeadingDot stripped)) as Hne.
      rewrite <- (concat_pieces (dropLeadingDot stripped)) at 3.
      destruct (pieces (dropLeadingDot stripped)); [contradiction | reflexivity].
  - rewrite Forall_forall in Hpieces |- *. intros x Hx.
    apply negb_true_iff, String.eqb_neq, Hpieces, Hx.
Qed.

End Resolver.

(** * Further properties of the compiler *)

Section CompilerProperties.

Variable SQLSyntax : Type.
Variable createUnsafely : string -> SQLSyntax.
Variable joinWithOr : list SQLSyntax -> SQLSyntax.
Variable roundBracket : SQLSyntax -> SQLSyntax.
Variable defaultJoinWithAnd : bool.
Variable defaultNegated : bool.
Variable groupToSql : AspectQueryGroup SQLSyntax -> string -> string -> option SQLSyntax.

Local Abbreviation compileExpression := (toAspectQuery createUnsafely).
Local Abbreviation compileRule := (toAspectQueryGroup createUnsafely).
Local Abbreviation compileDecision :=
  (toAspectQueryGroups createUnsafely defaultJoinWithAnd defaultNegated).
Local Abbreviation decisionSql :=
  (toSql createUnsafely joinWithOr roundBracket defaultJoinWithAnd
     defaultNegated groupToSql).

Ltac step_bind H :=
  let x := fresh "x" in
  let Hx := fresh "Hx" in
  apply bind_Ok_inv in H as (x & Hx & H).

Lemma toSqlOperator_Ok_inv (regoOperator : string) (sqlOperator : SQLSyntax) :
  toSqlOperator createUnsafely regoOperator = Ok sqlOperator ->
  In regoOperator comparisonOperators
  /\ sqlOperator = createUnsafely regoOperator.
Proof.
  unfold toSqlOperator, comparisonOperators. intros H.
  repeat match type of H with
         | (if String.eqb ?a ?b then _ else _) = _ =>
             let E := fresh "E" in
             destruct (String.eqb a b) eqn:E;
             [apply String.eqb_eq in E; subst; injection H as <-;
              split; [simpl; tauto | reflexivity] |]
         end.
  discriminate H.
Qed.

Lemma toSqlOperator_refuses (regoOperator : string) :
  ~ In regoOperator comparisonOperators ->
  toSqlOperator createUnsafely regoOperator = Err UnsupportedSqlOperator.
Proof.
  unfold toSqlOperator, comparisonOperators. intros H.
  repeat match goal with
         | |- (if String.eqb ?a ?b then _ else _) = _ =>
             let E := fresh "E" in
             destruct (String.eqb a b) eqn:E;
             [apply String.eqb_eq in E; subst; exfalso; apply H; simpl; tauto |]
         end.
  reflexivity.
Qed.

(** X10.  The SQL operator of a comparison is one of the five comparison
    operators, passed on as it is written; every other operator string is
    refused. *)
Theorem toSqlOperator_whitelist (regoOperator : string) (sqlOperator : SQLSyntax) :
  (toSqlOperator createUnsafely regoOperator = Ok sqlOperator <->
   In regoOperator comparisonOperators
   /\ sqlOperator = createUnsafely regoOperator)
  /\ (~ In regoOperator comparisonOperators ->
      toSqlOperator createUnsafely regoOperator = Err UnsupportedSqlOperator).
Proof.
  split; [| apply toSqlOperator_refuses].
  split; [apply toSqlOperator_Ok_inv |].
  intros [Hin ->]. unfold comparisonOperators in Hin. simpl in Hin.
  destruct Hin as [<- | [<- | [<- | [<- | [<- | []]]]]]; reflexivity.
Qed.

Lemma extractAspectIdAndPath_Ok_reference (prefixes : list string)
  (o : ConciseOperand) (t : string * list string * bool) :
  extractAspectIdAndPath prefixes o = Ok t ->
  exists s, isRef o = true /\ value o = JsString s.
Proof.
  unfold extractAspectIdAndPath, refStringWithoutPrefixes, refString.
  destruct o as [r v]; simpl. destruct r; simpl; [| discriminate].
  destruct v; simpl; try discriminate.
  intros _. eexists. split; reflexivity.
Qed.

(** X11.  An expression compiles only if it has one or two operands, one of
    which is a reference whose value is a JSON string; an expression
    without operands fails with the error reported for more than two
    operands. *)
Theorem toAspectQuery_needs_reference (prefixes : list string)
  (e : ConciseExpression) :
  (operands e = [] -> compileExpression prefixes e = Err MoreThanTwoOperands)
  /\ (forall q,
         compileExpression prefixes e = Ok q ->
         (List.length (operands e) = 1 \/ List.length (operands e) = 2)
         /\ exists o s, In o (operands e) /\ isRef o = true
                        /\ value o = JsString s).
Proof.
  unfold toAspectQuery. split.
  - intros ->. reflexivity.
  - intros q H.
    destruct (operands e) as [| o1 [| o2 [| o3 rest]]]; try discriminate H.
    + split; [left; reflexivity |].
      step_bind H.
      destruct (extractAspectIdAndPath_Ok_reference _ _ _ Hx) as (s & Hr & Hv).
      exists o1, s. simpl. auto.
    + split; [right; reflexivity |].
      destruct (find (fun o => negb (isRef o)) [o1; o2]) as [valOp |];
        [| discriminate H].
      destruct (find isRef [o1; o2]) as [refOp |] eqn:Hfind; [| discriminate H].
      apply find_some in Hfind as [Hin _].
      step_bind H.
      destruct (extractAspectIdAndPath_Ok_reference _ _ _ Hx) as (s & Hr & Hv).
      exists refOp, s. auto.
Qed.

Lemma two_operands_oneReference (e : ConciseExpression) (o1 o2 : ConciseOperand) :
  operands e = [o1; o2] ->
  isRef o1 = negb (isRef o2) ->
  oneReference e (if isRef o1 then o1 else o2) (if isRef o1 then o2 else o1).
Proof.
  intros Hops Hne. unfold oneReference. rewrite Hops.
  destruct (isRef o1) eqn:H1; destruct (isRef o2) eqn:H2; try discriminate Hne;
    repeat split; auto.
Qed.

(** X12.  Every query an expression compiles to is built from what the resolver
    returns for one of the operands and carries the negated flag of the
    expression: [Exists] or [ArrayNotEmpty] for one operand, and for two
    operands [ValueInArray] with the operator [=] on a collection
    reference, or [WithValue] with one of the five comparison operators,
    passed on as written.  The constant queries are never produced. *)
Theorem toAspectQuery_shape (prefixes : list string) (e : ConciseExpression)
  (q : AspectQuery SQLSyntax) :
  compileExpression prefixes e = Ok q ->
  exists o aspectId path isCollection,
    In o (operands e)
    /\ extractAspectIdAndPath prefixes o = Ok (aspectId, path, isCollection)
    /\ ((List.length (operands e) = 1 /\ isCollection = false
         /\ q = AspectQueryExists aspectId path (negated e))
        \/ (List.length (operands e) = 1 /\ isCollection = true
            /\ q = AspectQueryArrayNotEmpty aspectId path (negated e))
        \/ (List.length (operands e) = 2 /\ isCollection = true
            /\ operator e = Some "="
            /\ exists v, q = AspectQueryValueInArray aspectId path v (negated e))
        \/ (List.length (operands e) = 2 /\ isCollection = false
            /\ exists v op,
                operator e = Some op /\ In op comparisonOperators
                /\ q = AspectQueryWithValue aspectId path v (createUnsafely op)
                       (negated e) (referenceFirst e))).
Proof.
  intros H.
  destruct (operands e) as [| o1 [| o2 [| o3 rest]]] eqn:Hops;
    try (unfold toAspectQuery in H; rewrite Hops in H; discriminate H).
  - unfold toAspectQuery in H. rewrite Hops in H.
    step_bind H. destruct x as [[aspectId path] isCollection].
    exists o1, aspectId, path, isCollection.
    split; [left; reflexivity | split; [exact Hx |]].
    destruct isCollection; injection H as <-; auto 6.
  - destruct (Bool.eqb (isRef o1) (isRef o2)) eqn:Hsame.
    + exfalso. unfold toAspectQuery in H. rewrite Hops in H. simpl in H.
      apply Bool.eqb_prop in Hsame. rewrite <- Hsame in H.
      destruct (isRef o1); discriminate H.
    + assert (Hne : isRef o1 = negb (isRef o2)).
      { revert Hsame. destruct (isRef o1), (isRef o2); simpl; congruence. }
      pose proof (two_operands_oneReference e o1 o2 Hops Hne) as Hone.
      set (refOp := if isRef o1 then o1 else o2) in *.
      set (valOp := if isRef o1 then o2 else o1) in *.
      assert (Hin : In refOp [o1; o2])
        by (unfold refOp; destruct (isRef o1); simpl; auto).
      destruct (extractAspectIdAndPath prefixes refOp)
        as [[[aspectId path] isCollection] | err] eqn:Hex.
      * rewrite (compile_one_reference SQLSyntax createUnsafely prefixes e refOp
                   valOp aspectId path isCollection Hone Hex) in H.
        exists refOp, aspectId, path, isCollection.
        split; [exact Hin | split; [exact Hex |]].
        destruct isCollection.
        -- right; right; left.
           step_bind H. destruct (operator e) as [op |]; [| discriminate Hx].
           injection Hx as ->.
           destruct (String.eqb x "=") eqn:Hop; [| discriminate H].
           apply String.eqb_eq in Hop. subst x.
           step_bind H. injection H as <-.
           repeat split. exists x. reflexivity.
        -- right; right; right.
           step_bind H. step_bind H. step_bind H. injection H as <-.
           destruct (operator e) as [op |]; [| discriminate Hx0].
           injection Hx0 as ->.
           apply toSqlOperator_Ok_inv in Hx1 as [Hop ->].
           repeat split. exists x, x0. repeat split; assumption.
      * exfalso. clear Hone Hin.
        unfold toAspectQuery in H. rewrite Hops in H. simpl in H.
        subst refOp valOp. revert Hex H Hne.
        destruct (isRef o1), (isRef o2); simpl; intros Hex H Hne;
          try discriminate Hne; rewrite Hex in H; discriminate H.
Qed.

(** X13.  Exchanging the two operands of an expression changes nothing but the
    side on which a comparison places the reference: the same error, or
    the same query with [placeReferenceFirst] inverted. *)
Theorem toAspectQuery_operands_exchanged (prefixes : list string)
  (neg : bool) (op : option string) (o1 o2 : ConciseOperand) :
  compileExpression prefixes (mkExpression neg op [o2; o1]) =
  mapTry flipPlacement (compileExpression prefixes (mkExpression neg op [o1; o2])).
Proof.
  unfold toAspectQuery. simpl.
  destruct (isRef o1) eqn:H1; destruct (isRef o2) eqn:H2; simpl;
    try reflexivity.
  - destruct (extractAspectIdAndPath prefixes o1) as [[[a p] c] | err]; simpl;
      [| reflexivity].
    destruct c; simpl.
    + destruct op as [op |]; simpl; [| reflexivity].
      destruct (String.eqb op "="); simpl; [| reflexivity].
      destruct (toAspectQueryValue o2); reflexivity.
    + destruct (toAspectQueryValue o2); simpl; [| reflexivity].
      destruct op as [op |]; simpl; [| reflexivity].
      destruct (toSqlOperator createUnsafely op); reflexivity.
  - destruct (extractAspectIdAndPath prefixes o2) as [[[a p] c] | err]; simpl;
      [| reflexivity].
    destruct c; simpl.
    + destruct op as [op |]; simpl; [| reflexivity].
      destruct (String.eqb op "="); simpl; [| reflexivity].
      destruct (toAspectQueryValue o1); reflexivity.
    + destruct (toAspectQueryValue o1); simpl; [| reflexivity].
      destruct op as [op |]; simpl; [| reflexivity].
      destruct (toSqlOperator createUnsafely op); reflexivity.
Qed.

(** X14.  The failures of a two-operand expression with one reference, in the
    order in which they are met.  On a collection reference a missing
    operator fails first, then an operator other than [=], then the
    literal; on any other reference the literal is converted first, then a
    missing operator fails, then an operator that is not a comparison
    operator. *)
Theorem toAspectQuery_failures (prefixes : list string) (e : ConciseExpression)
  (refOp valOp : ConciseOperand) (aspectId : string) (path : list string)
  (isCollection : bool) :
  oneReference e refOp valOp ->
  extractAspectIdAndPath prefixes refOp = Ok (aspectId, path, isCollection) ->
  (isCollection = true ->
   (operator e = None -> compileExpression prefixes e = Err NoSuchElement)
   /\ (forall err, operator e = Some "=" ->
                   toAspectQueryValue valOp = Err err ->
                   compileExpression prefixes e = Err err))
  /\ (isCollection = false ->
      (forall err, toAspectQueryValue valOp = Err err ->
                   compileExpression prefixes e = Err err)
      /\ (forall v, toAspectQueryValue valOp = Ok v ->
                    operator e = None ->
                    compileExpression prefixes e = Err NoSuchElement)
      /\ (forall v op, toAspectQueryValue valOp = Ok v ->
                       operator e = Some op ->
                       ~ In op comparisonOperators ->
                       compileExpression prefixes e = Err UnsupportedSqlOperator)).
Proof.
  intros Hone Hex.
  rewrite (compile_one_reference SQLSyntax createUnsafely prefixes e refOp valOp
             aspectId path isCollection Hone Hex).
  split; intros ->.
  - split.
    + intros ->. reflexivity.
    + intros err -> ->. reflexivity.
  - split; [| split].
    + intros err ->. reflexivity.
    + intros v -> ->. reflexivity.
    + intros v op -> -> Hop. simpl.
      rewrite (toSqlOperator_refuses op Hop).
      reflexivity.
Qed.

(** *** Rules and decisions *)

Lemma mapM_first_error {A B : Type} (f : A -> Try B) (before after : list A)
  (a : A) (err : Error) :
  Forall (fun x => exists b, f x = Ok b) before ->
  f a = Err err ->
  mapM f (before ++ a :: after) = Err err.
Proof.
  intros Hb Ha. induction Hb as [| x before (b & Hx) _ IH]; simpl.
  - rewrite Ha. reflexivity.
  - rewrite Hx, IH. reflexivity.
Qed.

Lemma mapM_Ok_iff {A B : Type} (f : A -> Try B) (l : list A) :
  (exists bs, mapM f l = Ok bs) <-> Forall (fun a => exists b, f a = Ok b) l.
Proof.
  induction l as [| a l IH]; simpl.
  - split; [constructor | exists []; reflexivity].
  - split.
    + intros (bs & H). step_bind H. step_bind H.
      constructor; [exists x; exact Hx | apply IH; exists x0; exact Hx0].
    + intros H. inversion H as [| a' l' (b & Hb) Hl]; subst.
      apply IH in Hl as (bs & Hbs). exists (b :: bs).
      rewrite Hb, Hbs. reflexivity.
Qed.

(** X15.  The first expression that fails, in the first rule that has one, is
    what the compilation reports: the rule, the decision and [toSql] all
    fail with its error, and nothing is returned for the rules that
    compiled. *)
Theorem first_failure_reported (prefixes : list string) (rid tid : string)
  (d : AuthDecision) (rulesBefore rulesAfter : list ConciseRule) (r : ConciseRule)
  (before after : list ConciseExpression) (e : ConciseExpression) (err : Error) :
  hasResidualRules d = true ->
  rulesOf d = rulesBefore ++ r :: rulesAfter ->
  Forall (fun r' => exists g, compileRule prefixes r' = Ok g) rulesBefore ->
  expressions r = before ++ e :: after ->
  Forall (fun e' => exists q, compileExpression prefixes e' = Ok q) before ->
  compileExpression prefixes e = Err err ->
  compileRule prefixes r = Err err
  /\ compileDecision prefixes d = Err err
  /\ decisionSql prefixes rid tid d = Err err.
Proof.
  intros Hres Hrules Hrb Hexprs Heb He.
  assert (Hr : compileRule prefixes r = Err err).
  { unfold toAspectQueryGroup. rewrite Hexprs.
    rewrite (mapM_first_error _ before after e err Heb He). reflexivity. }
  assert (Hd : compileDecision prefixes d = Err err).
  { unfold toAspectQueryGroups. rewrite Hres, Hrules.
    apply mapM_first_error; assumption. }
  split; [exact Hr | split; [exact Hd |]].
  unfold toSql. rewrite Hd. reflexivity.
Qed.

(** X16.  For a decision with residual rules, [toAspectQueryGroups]
    returns exactly when every expression of every rule compiles, and
    [toSql] returns, with or without a condition, only if every expression
    of every rule compiles. *)
Theorem toSql_returns_only_if_all_compile (prefixes : list string)
  (rid tid : string) (d : AuthDecision) :
  hasResidualRules d = true ->
  ((exists groups, compileDecision prefixes d = Ok groups) <->
   Forall (fun r =>
             Forall (fun e => exists q, compileExpression prefixes e = Ok q)
                    (expressions r))
          (rulesOf d))
  /\ ((exists condition, decisionSql prefixes rid tid d = Ok condition) ->
      Forall (fun r =>
                Forall (fun e => exists q, compileExpression prefixes e = Ok q)
                       (expressions r))
             (rulesOf d)).
Proof.
  intros Hres.
  assert (Hrule : forall r,
             (exists g, compileRule prefixes r = Ok g) <->
             Forall (fun e => exists q, compileExpression prefixes e = Ok q)
                    (expressions r)).
  { intros r. rewrite <- mapM_Ok_iff. unfold toAspectQueryGroup. split.
    - intros (g & H). step_bind H. exists x. exact Hx.
    - intros (qs & H). rewrite H. eexists. reflexivity. }
  assert (Hall : Forall (fun r => exists g, compileRule prefixes r = Ok g) (rulesOf d)
                 <-> Forall (fun r =>
                               Forall (fun e => exists q,
                                           compileExpression prefixes e = Ok q)
                                      (expressions r)) (rulesOf d)).
  { rewrite !Forall_forall. split; intros H r Hin; apply Hrule, H, Hin. }
  assert (Hgroups : (exists groups, compileDecision prefixes d = Ok groups) <->
                    Forall (fun r =>
                              Forall (fun e => exists q,
                                          compileExpression prefixes e = Ok q)
                                     (expressions r)) (rulesOf d)).
  { rewrite <- Hall, <- mapM_Ok_iff.
    unfold toAspectQueryGroups. rewrite Hres. reflexivity. }
  split; [exact Hgroups |].
  intros (c & H). apply Hgroups. unfold toSql in H.
  step_bind H. exists x. exact Hx.
Qed.

Lemma toAspectQuery_not_constant (prefixes : list string)
  (e : ConciseExpression) (q : AspectQuery SQLSyntax) :
  compileExpression prefixes e = Ok q ->
  q <> AspectQueryTrue /\ q <> AspectQueryFalse.
Proof.
  unfold toAspectQuery. intros H.
  destruct (operands e) as [| o1 [| o2 [| o3 rest]]]; try discriminate H.
  - apply bind_Ok_inv in H as ([[aId pth] coll] & _ & H).
    destruct coll; injection H as <-; split; discriminate.
  - destruct (find (fun o => negb (isRef o)) [o1; o2]) as [valOp |];
      [| discriminate H].
    destruct (find isRef [o1; o2]) as [refOp |]; [| discriminate H].
    apply bind_Ok_inv in H as ([[aId pth] coll] & _ & H).
    apply bind_Ok_inv in H as (unsupported & _ & H).
    destruct unsupported; [discriminate H |].
    apply bind_Ok_inv in H as (membership & _ & H).
    destruct membership.
    + apply bind_Ok_inv in H as (v & _ & H).
      injection H as <-. split; discriminate.
    + apply bind_Ok_inv in H as (v & _ & H).
      apply bind_Ok_inv in H as (op & _ & H).
      apply bind_Ok_inv in H as (sqlOp & _ & H).
      injection H as <-. split; discriminate.
Qed.

(** X17.  A decision with residual rules compiles to one group for each rule,
    in the order of the rules, each joined with AND; none of its queries is
    a constant query, whatever the [result] of the decision is. *)
Theorem rule_groups_hold_no_constant (prefixes : list string) (d : AuthDecision)
  (groups : list (AspectQueryGroup SQLSyntax)) :
  hasResidualRules d = true ->
  compileDecision prefixes d = Ok groups ->
  Forall2 (fun r g => compileRule prefixes r = Ok g) (rulesOf d) groups
  /\ Forall (fun g => joinWithAnd g = true
                      /\ ~ In AspectQueryTrue (queries g)
                      /\ ~ In AspectQueryFalse (queries g)) groups.
Proof.
  intros Hres H. unfold toAspectQueryGroups in H. rewrite Hres in H.
  apply mapM_Ok_Forall2 in H. split; [exact H |].
  induction H as [| r g rules gs Hr _ IH]; constructor; [| exact IH].
  unfold toAspectQueryGroup in Hr. step_bind Hr. injection Hr as <-. simpl.
  split; [reflexivity |].
  apply mapM_Ok_Forall2 in Hx.
  assert (Hq : forall q, In q x ->
                         exists e, compileExpression prefixes e = Ok q).
  { clear -Hx. induction Hx as [| e q es qs He _ IH]; intros q' [].
    - subst. exists e. exact He.
    - apply IH. assumption. }
  split; intros Hin; apply Hq in Hin as (e & He);
    apply toAspectQuery_not_constant in He as [Ht Hf]; congruence.
Qed.

Lemma present_nil {A : Type} (conditions : list (option A)) :
  present conditions = [] <-> Forall (fun c => c = None) conditions.
Proof.
  unfold present. induction conditions as [| c cs IH]; simpl.
  - split; constructor.
  - destruct c as [x |]; simpl.
    + split; [discriminate | intros H; inversion H; discriminate].
    + rewrite IH. split; [constructor; auto | intros H; inversion H; auto].
Qed.

(** X18.  [toSql] returns the conditions of the groups that render to one,
    joined with OR and put in round brackets; it returns no condition
    exactly when no group of the decision renders to a condition. *)
Theorem toSql_condition (prefixes : list string) (rid tid : string)
  (d : AuthDecision) (groups : list (AspectQueryGroup SQLSyntax)) :
  compileDecision prefixes d = Ok groups ->
  (decisionSql prefixes rid tid d = Ok None <->
   Forall (fun g => groupToSql g rid tid = None) groups)
  /\ (forall sql,
         decisionSql prefixes rid tid d = Ok (Some sql) ->
         sql = roundBracket
                 (joinWithOr (present (map (fun g => groupToSql g rid tid) groups)))).
Proof.
  intros H. unfold toSql. rewrite H. simpl. unfold toOrConditionOpt.
  fold (present (map (fun g => groupToSql g rid tid) groups)).
  pose proof (present_nil (map (fun g => groupToSql g rid tid) groups)) as Hnil.
  rewrite Forall_map in Hnil.
  destruct (present (map (fun g => groupToSql g rid tid) groups)); simpl.
  - split; [| discriminate]. split; [intros _; apply Hnil; reflexivity | reflexivity].
  - split.
    + split; [discriminate |]. intros Hf. apply Hnil in Hf. discriminate Hf.
    + intros sql Hs. injection Hs as <-. reflexivity.
Qed.

End CompilerProperties.

(** * The context data of a record *)

Section ContextData.

Lemma lookup_updated (k k' : string) (v : JsValue) (m : list (string * JsValue)) :
  lookup k (updated k' v m) = if String.eqb k' k then Some v else lookup k m.
Proof.
  induction m as [| [k0 v0] m IH]; simpl; [reflexivity |].
  destruct (String.eqb k0 k') eqn:H0; simpl.
  - apply String.eqb_eq in H0. subst k0.
    destruct (String.eqb k' k); reflexivity.
  - rewrite IH. destruct (String.eqb k' k) eqn:Hk; [| reflexivity].
    apply String.eqb_eq in Hk. subst k'. rewrite H0. reflexivity.
Qed.

Lemma lookup_app (k : string) (l1 l2 : list (string * JsValue)) :
  lookup k (l1 ++ l2) =
  match lookup k l1 with Some v => Some v | None => lookup k l2 end.
Proof.
  induction l1 as [| [k0 v0] l1 IH]; simpl; [reflexivity |].
  destruct (String.eqb k0 k); [reflexivity | exact IH].
Qed.

(** In the map of some entries a key holds the value of the last entry
    with that key. *)
Lemma lookup_fold_updated (k : string) (entries m : list (string * JsValue)) :
  lookup k (fold_left (fun m kv => updated (fst kv) (snd kv) m) entries m) =
  match lookup k (rev entries) with Some v => Some v | None => lookup k m end.
Proof.
  revert m; induction entries as [| [k0 v0] entries IH]; intros m; simpl;
    [reflexivity |].
  rewrite IH, lookup_app, lookup_updated. simpl.
  destruct (lookup k (rev entries)); [reflexivity |].
  destruct (String.eqb k0 k); reflexivity.
Qed.

Lemma lookup_toMap (k : string) (entries : list (string * JsValue)) :
  lookup k (toMap entries) = lookup k (rev entries).
Proof.
  unfold toMap. rewrite lookup_fold_updated.
  destruct (lookup k (rev entries)); reflexivity.
Qed.

Lemma lookup_absent (k : string) (l : list (string * JsValue)) :
  ~ In k (map fst l) -> lookup k l = None.
Proof.
  induction l as [| [k0 v0] l IH]; simpl; intros H; [reflexivity |].
  destruct (String.eqb k0 k) eqn:Hk.
  - apply String.eqb_eq in Hk. exfalso. apply H. left. exact Hk.
  - apply IH. intros Hin. apply H. right. exact Hin.
Qed.

Lemma lookup_unique (k : string) (v : JsValue) (l : list (string * JsValue)) :
  NoDup (map fst l) -> In (k, v) l -> lookup k l = Some v.
Proof.
  induction l as [| [k0 v0] l IH]; simpl; intros Hnd Hin; [contradiction |].
  inversion Hnd as [| x xs Hx Hnd']; subst.
  destruct Hin as [Heq | Hin].
  - injection Heq as -> ->. rewrite String.eqb_refl. reflexivity.
  - destruct (String.eqb k0 k) eqn:Hk.
    + apply String.eqb_eq in Hk. subst k0. exfalso. apply Hx.
      apply in_map_iff. exists (k, v). split; [reflexivity | exact Hin].
    + apply IH; assumption.
Qed.

Lemma aspect_entries_keys (l : list (string * list (string * JsValue))) :
  map fst (map (fun a => (fst a, JsObject (snd a))) l) = map fst l.
Proof. rewrite map_map. reflexivity. Qed.

(** The entries of the aspects, last in first out, and before them the
    fields of the record itself. *)
Lemma contextField_lookup (k : string) (record : RegistryRecord) :
  contextField k record =
  match lookup k (rev (map (fun a => (fst a, JsObject (snd a))) (aspects record))) with
  | Some v => Some v
  | None =>
      lookup k
        (rev ([("id", JsString (record_id record));
               ("name", JsString (record_name record));
               ("lastUpdate", JsNull)]
              ++ toList (option_map (fun t => ("sourceTag", JsString t))
                           (sourceTag record))
              ++ toList (option_map
                           (fun t => ("tenantId", JsNumber (mkBigDecimal t 0)))
                           (tenantId record))))
  end.
Proof.
  unfold contextField, recordToContextData, recordJsFields.
  rewrite lookup_toMap.
  rewrite !app_assoc, rev_app_distr, lookup_app, <- !app_assoc. reflexivity.
Qed.

(** X19.  Every aspect of the record is in the context data under its id, with
    its fields: also an aspect whose id is the name of a field of the
    record, which it then replaces. *)
Theorem context_holds_every_aspect (record : RegistryRecord) (aspectId : string)
  (fields : list (string * JsValue)) :
  NoDup (map fst (aspects record)) ->
  In (aspectId, fields) (aspects record) ->
  contextField aspectId record = Some (JsObject fields).
Proof.
  intros Hnd Hin. rewrite contextField_lookup.
  rewrite (lookup_unique aspectId (JsObject fields)); [reflexivity | |].
  - rewrite map_rev, aspect_entries_keys, <- map_rev.
    apply (Permutation_NoDup (l := map fst (aspects record))); [| exact Hnd].
    apply Permutation_map, Permutation_rev.
  - apply in_rev. rewrite rev_involutive.
    apply in_map_iff. exists (aspectId, fields). split; [reflexivity | exact Hin].
Qed.

(** X20.  Where no aspect has the name of the field, the context data holds the
    id and the name of the record, a null [lastUpdate], and the source tag
    and the tenant id exactly when the record has them. *)
Theorem context_record_fields (record : RegistryRecord) (k : string) :
  ~ In k (map fst (aspects record)) ->
  contextField k record =
  if String.eqb k "id" then Some (JsString (record_id record))
  else if String.eqb k "name" then Some (JsString (record_name record))
  else if String.eqb k "lastUpdate" then Some JsNull
  else if String.eqb k "sourceTag" then option_map JsString (sourceTag record)
  else if String.eqb k "tenantId"
       then option_map (fun t => JsNumber (mkBigDecimal t 0)) (tenantId record)
  else None.
Proof.
  intros Hk. rewrite contextField_lookup.
  rewrite lookup_absent.
  2:{ rewrite map_rev, aspect_entries_keys, <- in_rev. exact Hk. }
  rewrite !(String.eqb_sym k).
  destruct (sourceTag record) as [st |], (tenantId record) as [t |];
    cbn [rev app toList option_map lookup];
    repeat match goal with
           | |- context [String.eqb ?a k] => destruct (String.eqb a k) eqn:?
           end;
    try reflexivity;
    exfalso;
    repeat match goal with
           | H : String.eqb _ k = true |- _ => apply String.eqb_eq in H; subst k
           end;
    repeat match goal with
           | H : String.eqb _ _ = _ |- _ =>
               vm_compute in H; first [discriminate H | clear H]
           end.
Qed.

End ContextData.

(** * The request for a decision *)

Lemma falseOnly_In (key k : string) (flag : option bool) (v : option string) :
  In (k, v) (falseOnly key flag) <->
  k = key /\ exists b, flag = Some b /\ v = if b then None else Some "false".
Proof.
  unfold falseOnly. destruct flag as [b |]; simpl.
  - split.
    + intros [H | []]. injection H as <- <-. split; [reflexivity |].
      exists b. split; [reflexivity |]. destruct b; reflexivity.
    + intros (-> & b' & Hb & ->). injection Hb as <-.
      left. destruct b; reflexivity.
  - split; [intros [] | intros (_ & b & Hb & _); discriminate Hb].
Qed.

(** The fields of the query string, one by one. *)
Lemma requestQueryFields_In (config : AuthDecisionReqConfig) (k : string)
  (v : option string) :
  In (k, v) (requestQueryFields config) <->
  (k = "rawAst"
   /\ exists b, rawAst config = Some b /\ v = if b then None else Some "false")
  \/ (k = "concise"
      /\ exists b, concise config = Some b
                   /\ v = if b then None else Some "false")
  \/ (k = "explain" /\ exists t, explain config = Some t /\ v = Some t)
  \/ (k = "pretty"
      /\ exists b, pretty config = Some b /\ v = Some (boolToString b))
  \/ (k = "humanReadable"
      /\ exists b, humanReadable config = Some b
                   /\ v = if b then None else Some "false")
  \/ (k = "unknowns" /\ unknownsEmpty config = true /\ v = Some "").
Proof.
  unfold requestQueryFields. rewrite !in_app_iff, !falseOnly_In.
  assert (He : In (k, v) (if isDefined (explain config)
                          then [("explain", explain config)] else []) <->
               k = "explain" /\ exists t, explain config = Some t /\ v = Some t).
  { destruct (explain config) as [t |]; simpl.
    - split.
      + intros [H | []]. injection H as <- <-. split; [reflexivity |].
        exists t. split; reflexivity.
      + intros (-> & t' & Ht & ->). left. rewrite Ht. reflexivity.
    - split; [intros [] | intros (_ & t & Ht & _); discriminate Ht]. }
  assert (Hp : In (k, v) (if isDefined (pretty config)
                          then [("pretty", option_map boolToString (pretty config))]
                          else []) <->
               k = "pretty"
               /\ exists b, pretty config = Some b /\ v = Some (boolToString b)).
  { destruct (pretty config) as [b |]; simpl.
    - split.
      + intros [H | []]. injection H as <- <-. split; [reflexivity |].
        exists b. split; reflexivity.
      + intros (-> & b' & Hb & ->). injection Hb as <-. left. reflexivity.
    - split; [intros [] | intros (_ & b & Hb & _); discriminate Hb]. }
  assert (Hu : In (k, v) (if unknownsEmpty config then [("unknowns", Some "")]
                          else []) <->
               k = "unknowns" /\ unknownsEmpty config = true /\ v = Some "").
  { destruct (unknownsEmpty config); simpl.
    - split.
      + intros [H | []]. injection H as <- <-. repeat split.
      + intros (-> & _ & ->). left. reflexivity.
    - split; [intros [] | intros (_ & H & _); discriminate H]. }
  rewrite He, Hp, Hu. reflexivity.
Qed.

(** X21.  The flags [rawAst], [concise] and [humanReadable] go into the query
    string with a value only when they are false, and then with the value
    [false]: each of the three is sent as its key without value when it is
    true, as its key with the value [false] when it is false, and not at
    all when it is absent.  [pretty] is sent with its value, true or
    false, and not at all when it is absent. *)
Theorem query_flags (config : AuthDecisionReqConfig) :
  sentFalseOnly "rawAst" (rawAst config) (requestQueryFields config)
  /\ sentFalseOnly "concise" (concise config) (requestQueryFields config)
  /\ sentFalseOnly "humanReadable" (humanReadable config)
       (requestQueryFields config)
  /\ (forall v, In ("pretty", v) (requestQueryFields config) <->
                exists b, pretty config = Some b /\ v = Some (boolToString b))
  /\ (forall k v, In (k, Some v) (requestQueryFields config) ->
                  In k ["rawAst"; "concise"; "humanReadable"] ->
                  v = "false").
Proof.
  unfold sentFalseOnly.
  split; [| split; [| split; [| split]]].
  - intros v. split; intros H.
    + apply requestQueryFields_In in H.
      repeat (destruct H as [H | H]); destruct H as (Hk & Hrest);
        try discriminate Hk; exact Hrest.
    + apply requestQueryFields_In. left. split; [reflexivity | exact H].
  - intros v. split; intros H.
    + apply requestQueryFields_In in H.
      repeat (destruct H as [H | H]); destruct H as (Hk & Hrest);
        try discriminate Hk; exact Hrest.
    + apply requestQueryFields_In. right; left. split; [reflexivity | exact H].
  - intros v. split; intros H.
    + apply requestQueryFields_In in H.
      repeat (destruct H as [H | H]); destruct H as (Hk & Hrest);
        try discriminate Hk; exact Hrest.
    + apply requestQueryFields_In. do 4 right; left.
      split; [reflexivity | exact H].
  - intros v. split; intros H.
    + apply requestQueryFields_In in H.
      repeat (destruct H as [H | H]); destruct H as (Hk & Hrest);
        try discriminate Hk; exact Hrest.
    + apply requestQueryFields_In. do 3 right; left.
      split; [reflexivity | exact H].
  - intros k v Hin Hk. apply requestQueryFields_In in Hin. simpl in Hk.
    destruct Hin as [(_ & b & _ & Hv) | [(_ & b & _ & Hv) | [(-> & _)
      | [(-> & _) | [(_ & b & _ & Hv) | (-> & _)]]]]];
      try (destruct b; congruence);
      exfalso; intuition discriminate.
Qed.

Lemma unknowns_query (config : AuthDecisionReqConfig) :
  In "unknowns" (map fst (requestQueryFields config)) ->
  unknownsEmpty config = true.
Proof.
  unfold requestQueryFields, falseOnly.
  rewrite !map_app, !in_app_iff.
  destruct (rawAst config) as [[|] |], (concise config) as [[|] |],
    (explain config), (pretty config), (humanReadable config) as [[|] |],
    (unknownsEmpty config); simpl; intuition discriminate.
Qed.

Section Requests.

Variable pathParts : string -> list string.

Variable SQLSyntax : Type.
Variable createUnsafely : string -> SQLSyntax.
Variable defaultJoinWithAnd : bool.
Variable defaultNegated : bool.

(** X22.  The unknowns of the request go one way only: an empty list as the
    query field [unknowns] with the empty value and not in the request
    data, a list that is not empty as the array [unknowns] of the request
    data of a POST and not in the query string, and absent unknowns
    nowhere. *)
Theorem unknowns_sent_one_way (jwtToken : option string)
  (config : AuthDecisionReqConfig) (r : DecisionRequest) :
  getAuthDecision pathParts false jwtToken config = Fetch r ->
  match req_unknowns config with
  | None =>
      ~ In "unknowns" (map fst (query r))
      /\ requestDataField "unknowns" r = None
  | Some [] =>
      In ("unknowns", Some "") (query r)
      /\ requestDataField "unknowns" r = None
  | Some us =>
      ~ In "unknowns" (map fst (query r))
      /\ post r = true
      /\ requestDataField "unknowns" r = Some (JsArray (map JsString us))
  end.
Proof.
  unfold getAuthDecision. intros H. injection H as <-.
  unfold requestDataField. simpl.
  destruct (req_unknowns config) as [[| u us] |] eqn:Hu.
  - split.
    + unfold requestQueryFields, unknownsEmpty. rewrite Hu. simpl.
      rewrite !in_app_iff. do 5 right. left. reflexivity.
    + unfold usePost, requestDataFields, unknownsGiven. rewrite Hu.
      destruct (input config), (resourceUri config); simpl;
        rewrite ?lookup_toMap; reflexivity.
  - split; [| split].
    + intros Hq. apply unknowns_query in Hq.
      unfold unknownsEmpty in Hq. rewrite Hu in Hq. discriminate Hq.
    + unfold usePost, unknownsGiven. rewrite Hu. simpl.
      destruct (isDefined (input config)); reflexivity.
    + unfold usePost, requestDataFields, unknownsGiven. rewrite Hu.
      destruct (input config), (resourceUri config); simpl;
        rewrite ?lookup_toMap; reflexivity.
  - split.
    + intros Hq. apply unknowns_query in Hq.
      unfold unknownsEmpty in Hq. rewrite Hu in Hq. discriminate Hq.
    + unfold usePost, requestDataFields, unknownsGiven. rewrite Hu.
      destruct (input config), (resourceUri config); simpl;
        rewrite ?lookup_toMap; reflexivity.
Qed.

(** X23.  A decision is asked for with a GET exactly when the request has no
    input, no resource URI and no unknowns, or an empty list of them; the
    GET carries the operation URI in the path of the URL and no request
    data; a POST goes to the bare endpoint with the operation URI, the
    input and the resource URI in its request data. *)
Theorem operation_sent_one_way (jwtToken : option string)
  (config : AuthDecisionReqConfig) (r : DecisionRequest) :
  getAuthDecision pathParts false jwtToken config = Fetch r ->
  (post r = false <->
   input config = None /\ unknownsGiven config = false
   /\ resourceUri config = None)
  /\ (post r = false ->
      urlPath r = authDecisionEndpoint ++ pathParts (operationUri config)
      /\ requestData r = None)
  /\ (post r = true ->
      urlPath r = authDecisionEndpoint
      /\ requestDataField "operationUri" r = Some (JsString (operationUri config))
      /\ requestDataField "input" r = input config
      /\ requestDataField "resourceUri" r =
         option_map JsString (resourceUri config)).
Proof.
  unfold getAuthDecision. intros H. injection H as <-.
  unfold requestDataField. simpl. split; [| split].
  - unfold usePost.
    destruct (input config), (unknownsGiven config), (resourceUri config);
      simpl; split; try discriminate; try (intros (? & ? & ?); discriminate);
      auto.
  - intros ->. split; reflexivity.
  - intros Hp. rewrite Hp. simpl. split; [reflexivity |].
    unfold requestDataFields.
    destruct (input config), (unknownsGiven config),
      (req_unknowns config), (resourceUri config); simpl;
      rewrite ?lookup_toMap; repeat split; reflexivity.
Qed.

(** X24.  When the policy engine is skipped, no request is made and the decision
    returned compiles, for every token, request and prefix set, to the one
    group holding the constant query [True]. *)
Theorem skipped_engine_allows (jwtToken : option string)
  (config : AuthDecisionReqConfig) (prefixes : list string) :
  exists d,
    getAuthDecision pathParts true jwtToken config = Immediate d
    /\ toAspectQueryGroups createUnsafely defaultJoinWithAnd defaultNegated
         prefixes d =
       Ok [mkGroup [AspectQueryTrue] defaultJoinWithAnd defaultNegated].
Proof. exists UnconditionalTrueDecision. split; reflexivity. Qed.

End Requests.

(** * The further properties on examples *)

Lemma operand_reference_xor_value_witness :
  refString ownerRef = Ok "input.object.record.aspects.ds.owner"
  /\ toAspectQueryValue ownerRef = Err RefToValue.
Proof.
  split; [reflexivity |].
  apply (proj1 (operand_reference_xor_value ownerRef)
           "input.object.record.aspects.ds.owner" eq_refl).
Defined.

Lemma toAspectQueryValue_injective_witness :
  toAspectQueryValue abcLiteral = Ok (AspectQueryStringValue "abc")
  /\ toAspectQueryValue (mkOperand false (JsString "abc"))
     = Ok (AspectQueryStringValue "abc")
  /\ abcLiteral = mkOperand false (JsString "abc").
Proof.
  split; [reflexivity | split; [reflexivity |]].
  apply (toAspectQueryValue_injective abcLiteral
           (mkOperand false (JsString "abc")) (AspectQueryStringValue "abc"));
    reflexivity.
Defined.

Lemma refStringWithoutPrefixes_suffix_witness :
  refStringWithoutPrefixes aspectsPrefix ownerRef = Ok ".ds.owner"
  /\ exists removed,
      refString ownerRef = Ok (String.append removed ".ds.owner")
      /\ String.length ".ds.owner"
         <= String.length (String.append removed ".ds.owner").
Proof.
  split; [reflexivity |].
  apply (refStringWithoutPrefixes_suffix aspectsPrefix ownerRef ".ds.owner").
  reflexivity.
Defined.

Lemma refStringWithoutPrefixes_single_witness :
  startsWith "ds.owner" "object.record" = false
  /\ refStringWithoutPrefixes ["object.record"]
       (mkOperand true (JsString "ds.owner")) = Ok "ds.owner".
Proof.
  split; [reflexivity |].
  apply (proj2 (refStringWithoutPrefixes_single "object.record" "ds.owner" "")).
  reflexivity.
Defined.

Lemma refStringWithoutPrefixes_distinct_lengths_witness :
  NoDup (map String.length ["input"; "input.object.record"])
  /\ Permutation ["input"; "input.object.record"] ["input.object.record"; "input"]
  /\ refStringWithoutPrefixes ["input"; "input.object.record"] ownerRef =
     refStringWithoutPrefixes ["input.object.record"; "input"] ownerRef.
Proof.
  assert (Hnd : NoDup (map String.length ["input"; "input.object.record"])).
  { simpl. repeat constructor; simpl; intuition discriminate. }
  assert (Hp : Permutation ["input"; "input.object.record"]
                 ["input.object.record"; "input"]) by apply perm_swap.
  split; [exact Hnd | split; [exact Hp |]].
  apply (proj2 (refStringWithoutPrefixes_distinct_lengths
                  ["input"; "input.object.record"]
                  ["input.object.record"; "input"] ownerRef Hnd Hp)).
Defined.

Lemma extractAspectIdAndPath_wellformed_witness :
  extractAspectIdAndPath aspectsPrefix ownerRef = Ok ("ds", ["owner"], false)
  /\ isSegment "ds" /\ Forall isSegment ["owner"].
Proof.
  split; [reflexivity |].
  apply (extractAspectIdAndPath_wellformed aspectsPrefix ownerRef "ds" ["owner"]
           false eq_refl).
  left. discriminate.
Defined.

Lemma extractAspectIdAndPath_rejoin_witness :
  refStringWithoutPrefixes aspectsPrefix ownerRef = Ok ".ds.owner"
  /\ extractAspectIdAndPath aspectsPrefix ownerRef = Ok ("ds", ["owner"], false)
  /\ String.concat "." ["ds"; "owner"] = "ds.owner".
Proof.
  split; [reflexivity | split; [reflexivity |]].
  apply (extractAspectIdAndPath_rejoin aspectsPrefix ownerRef ".ds.owner" "ds"
           ["owner"] eq_refl eq_refl).
  simpl. repeat constructor; discriminate.
Defined.

Lemma toSqlOperator_whitelist_witness :
  ~ In "!=" comparisonOperators
  /\ toSqlOperator textSql "!=" = Err UnsupportedSqlOperator.
Proof.
  assert (Hno : ~ In "!=" comparisonOperators)
    by (unfold comparisonOperators; simpl; intuition discriminate).
  split; [exact Hno |].
  apply (proj2 (toSqlOperator_whitelist string textSql "!=" "") Hno).
Defined.

Lemma toAspectQuery_needs_reference_witness :
  operands (mkExpression false (Some "=") []) = []
  /\ toAspectQuery textSql aspectsPrefix (mkExpression false (Some "=") []) =
     Err MoreThanTwoOperands.
Proof.
  split; [reflexivity |].
  apply (proj1 (toAspectQuery_needs_reference string textSql aspectsPrefix
                  (mkExpression false (Some "=") []))).
  reflexivity.
Defined.

Lemma toAspectQuery_shape_witness :
  toAspectQuery textSql aspectsPrefix
    (mkExpression true (Some "<") [abcLiteral; ownerRef]) =
  Ok (AspectQueryWithValue "ds" ["owner"] (AspectQueryStringValue "abc") "<"
        true false)
  /\ exists o aspectId path isCollection,
      In o [abcLiteral; ownerRef]
      /\ extractAspectIdAndPath aspectsPrefix o = Ok (aspectId, path, isCollection).
Proof.
  split; [reflexivity |].
  destruct (toAspectQuery_shape string textSql aspectsPrefix
              (mkExpression true (Some "<") [abcLiteral; ownerRef])
              (AspectQueryWithValue "ds" ["owner"] (AspectQueryStringValue "abc")
                 "<" true false) eq_refl)
    as (o & aspectId & path & isCollection & Hin & Hex & _).
  exists o, aspectId, path, isCollection. split; [exact Hin | exact Hex].
Defined.

Lemma toAspectQuery_failures_witness :
  oneReference (mkExpression false (Some "!=") [ownerRef; abcLiteral])
    ownerRef abcLiteral
  /\ extractAspectIdAndPath aspectsPrefix ownerRef = Ok ("ds", ["owner"], false)
  /\ toAspectQuery textSql aspectsPrefix
       (mkExpression false (Some "!=") [ownerRef; abcLiteral]) =
     Err UnsupportedSqlOperator.
Proof.
  assert (Hone : oneReference (mkExpression false (Some "!=") [ownerRef; abcLiteral])
                   ownerRef abcLiteral).
  { split; [reflexivity | split; [reflexivity | left; reflexivity]]. }
  split; [exact Hone | split; [reflexivity |]].
  apply (proj2 (proj2 (proj2 (toAspectQuery_failures string textSql aspectsPrefix
                                (mkExpression false (Some "!=") [ownerRef; abcLiteral])
                                ownerRef abcLiteral "ds" ["owner"] false Hone eq_refl)
                         eq_refl))
           (AspectQueryStringValue "abc") "!="); try reflexivity.
  unfold comparisonOperators; simpl; intuition discriminate.
Defined.

Lemma first_failure_reported_witness :
  hasResidualRules brokenDecision = true
  /\ toAspectQuery textSql aspectsPrefix twoReferences = Err BothReferences
  /\ toSql textSql textJoinWithOr textRoundBracket true false textGroupToSql
       aspectsPrefix defaultRecordIdSqlRef defaultTenantIdSqlRef brokenDecision
     = Err BothReferences.
Proof.
  split; [reflexivity | split; [reflexivity |]].
  apply (first_failure_reported string textSql textJoinWithOr textRoundBracket
           true false textGroupToSql aspectsPrefix defaultRecordIdSqlRef
           defaultTenantIdSqlRef brokenDecision [ownerRule] [ownerRule] brokenRule
           [ownerExpression] [ownerExpression] twoReferences BothReferences);
    try reflexivity;
    repeat constructor; eexists; reflexivity.
Defined.

Lemma toSql_returns_only_if_all_compile_witness :
  hasResidualRules ownerDecision = true
  /\ (exists groups,
        toAspectQueryGroups textSql true false aspectsPrefix ownerDecision
        = Ok groups)
  /\ Forall (fun r =>
               Forall (fun e => exists q,
                           toAspectQuery textSql aspectsPrefix e = Ok q)
                      (expressions r))
            (rulesOf ownerDecision).
Proof.
  assert (Hg : exists groups,
             toAspectQueryGroups textSql true false aspectsPrefix ownerDecision
             = Ok groups) by (eexists; reflexivity).
  split; [reflexivity | split; [exact Hg |]].
  apply (proj1 (proj1 (toSql_returns_only_if_all_compile string textSql
                         textJoinWithOr textRoundBracket true false
                         textGroupToSql aspectsPrefix defaultRecordIdSqlRef
                         defaultTenantIdSqlRef ownerDecision eq_refl)) Hg).
Defined.

Lemma rule_groups_hold_no_constant_witness :
  hasResidualRules ownerDecision = true
  /\ toAspectQueryGroups textSql true false aspectsPrefix ownerDecision =
     Ok [mkGroup [AspectQueryExists "ds" ["owner"] false] true false]
  /\ Forall (fun g => joinWithAnd g = true
                      /\ ~ In AspectQueryTrue (queries g)
                      /\ ~ In AspectQueryFalse (queries g))
            [mkGroup [AspectQueryExists (SQLSyntax := string) "ds" ["owner"] false]
               true false].
Proof.
  split; [reflexivity | split; [reflexivity |]].
  apply (proj2 (rule_groups_hold_no_constant string textSql true false
                  aspectsPrefix ownerDecision
                  [mkGroup [AspectQueryExists "ds" ["owner"] false] true false]
                  eq_refl eq_refl)).
Defined.

Lemma toSql_condition_witness :
  toAspectQueryGroups textSql true false defaultPrefixes UnconditionalTrueDecision
  = Ok [mkGroup [AspectQueryTrue] true false]
  /\ toSql textSql textJoinWithOr textRoundBracket true false textGroupToSql
       defaultPrefixes defaultRecordIdSqlRef defaultTenantIdSqlRef
       UnconditionalTrueDecision = Ok (Some "(TRUE)")
  /\ "(TRUE)" = textRoundBracket (textJoinWithOr ["TRUE"]).
Proof.
  split; [reflexivity | split; [reflexivity |]].
  apply (proj2 (toSql_condition string textSql textJoinWithOr textRoundBracket
                  true false textGroupToSql defaultPrefixes defaultRecordIdSqlRef
                  defaultTenantIdSqlRef UnconditionalTrueDecision
                  [mkGroup [AspectQueryTrue] true false] eq_refl)
           "(TRUE)" eq_refl).
Defined.

Lemma context_holds_every_aspect_witness :
  NoDup (map fst (aspects sampleRecord))
  /\ In ("id", []) (aspects sampleRecord)
  /\ contextField "id" sampleRecord = Some (JsObject []).
Proof.
  assert (Hnd : NoDup (map fst (aspects sampleRecord))).
  { simpl. repeat constructor; simpl; intuition discriminate. }
  assert (Hin : In ("id", []) (aspects sampleRecord))
    by (simpl; right; left; reflexivity).
  split; [exact Hnd | split; [exact Hin |]].
  apply (context_holds_every_aspect sampleRecord "id" [] Hnd Hin).
Defined.

Lemma context_record_fields_witness :
  ~ In "name" (map fst (aspects sampleRecord))
  /\ contextField "name" sampleRecord = Some (JsString "A record").
Proof.
  assert (Hno : ~ In "name" (map fst (aspects sampleRecord)))
    by (simpl; intuition discriminate).
  split; [exact Hno |].
  apply (context_record_fields sampleRecord "name" Hno).
Defined.

Lemma query_flags_witness :
  rawAst sampleConfig = Some true
  /\ In ("rawAst", None) (requestQueryFields sampleConfig)
  /\ ~ In ("rawAst", Some "true") (requestQueryFields sampleConfig).
Proof.
  split; [reflexivity |].
  destruct (query_flags sampleConfig) as (Hraw & _).
  split.
  - apply (proj2 (Hraw None)). exists true. split; reflexivity.
  - intros H. apply (proj1 (Hraw (Some "true"))) in H as (b & _ & Hv).
    destruct b; discriminate Hv.
Defined.

Lemma unknowns_sent_one_way_witness :
  getAuthDecision onePart false (Some "token") sampleConfig = Fetch sampleRequest
  /\ ~ In "unknowns" (map fst (query sampleRequest))
  /\ post sampleRequest = true
  /\ requestDataField "unknowns" sampleRequest =
     Some (JsArray [JsString "input.object.record"]).
Proof.
  split; [reflexivity |].
  apply (unknowns_sent_one_way onePart (Some "token") sampleConfig sampleRequest
           eq_refl).
Defined.

Lemma operation_sent_one_way_witness :
  getAuthDecision onePart false (Some "token") sampleConfig = Fetch sampleRequest
  /\ post sampleRequest = true
  /\ urlPath sampleRequest = authDecisionEndpoint
  /\ requestDataField "operationUri" sampleRequest =
     Some (JsString "object/record/read").
Proof.
  split; [reflexivity | split; [reflexivity |]].
  destruct (proj2 (proj2 (operation_sent_one_way onePart (Some "token")
                            sampleConfig sampleRequest eq_refl)) eq_refl)
    as (Hpath & Huri & _).
  split; [exact Hpath | exact Huri].
Defined.
